(** * A shallow embedding of the chat widget

    Sources: [frontend/components/chat-ui.tsx] (session store and request
    lifecycle) and [frontend/components/markdown.tsx] (code-block rendering).

    Conventions.
    - A JavaScript string is a [string]: a sequence of code units, here the
      code units below 256.  [String.length] is the [.length] property.
    - A JavaScript object is an association list in insertion order.
    - A statement that can throw returns a [Result]; [try]/[catch] is
      [try_catch].
    - The browser's text-level builtins ([JSON.parse], the text emitted by
      [JSON.stringify], the [Date] string parser and [toISOString]) are
      Variables of the section that holds the component, so what is proved
      there holds whatever they are.  [Module Ref] gives an executable
      implementation of each; that each reads back what the other prints is
      proved below, and the closed examples run on them. *)

From Stdlib Require Import ZArith Ascii String List Bool Lia.
From stdpp Require Import gmap strings pretty.

Local Open Scope Z_scope.

(* ===================================================================== *)
(** ** JavaScript strings                                                 *)
(* ===================================================================== *)

Module JsString.

(** White space and line terminators of ECMAScript among the code units
    below 256: TAB, LF, VT, FF, CR, SP and NBSP. *)
Definition is_white_space (c : ascii) : bool :=
  match c with
  | "009" | "010" | "011" | "012" | "013" | " " | "160" => true
  | _ => false
  end%char.

Definition is_empty (s : string) : bool :=
  match s with EmptyString => true | String _ _ => false end.

Fixpoint trimStart (s : string) : string :=
  match s with
  | EmptyString => EmptyString
  | String c r => if is_white_space c then trimStart r else s
  end.

Fixpoint trimEnd (s : string) : string :=
  match s with
  | EmptyString => EmptyString
  | String c r =>
      let r' := trimEnd r in
      if is_white_space c && is_empty r' then EmptyString else String c r'
  end.

(** [String.prototype.trim] *)
Definition trim (s : string) : string := trimEnd (trimStart s).

(** Every code unit of [s] is white space (so also when [s] is empty). *)
Fixpoint whitespace_only (s : string) : bool :=
  match s with
  | EmptyString => true
  | String c r => is_white_space c && whitespace_only r
  end.

(** Every code unit of [s] passes the test [p]. *)
Fixpoint every_unit (p : ascii -> bool) (s : string) : bool :=
  match s with
  | EmptyString => true
  | String c r => p c && every_unit p r
  end.

(** [String.prototype.startsWith] *)
Definition startsWith (p s : string) : bool := String.prefix p s.

(** Truthiness of a string: the empty string is the only falsy one. *)
Definition truthy (s : string) : bool := negb (is_empty s).

(** [Array.prototype.join] on strings. *)
Fixpoint join (sep : string) (l : list string) : string :=
  match l with
  | [] => ""
  | [x] => x
  | x :: r => x +:+ sep +:+ join sep r
  end.

(** The single-character strings of [s], as the spread of a string
    enumerates them. *)
Fixpoint chars (s : string) : list string :=
  match s with
  | EmptyString => []
  | String c r => String c EmptyString :: chars r
  end.

End JsString.

(* ===================================================================== *)
(** ** Exceptions                                                          *)
(* ===================================================================== *)

Inductive Exn : Type :=
| TypeError
| SyntaxError
| QuotaExceededError
| NetworkError
| Error (message : string).

Inductive Result (A : Type) : Type :=
| Ok (a : A)
| Throw (e : Exn).
Arguments Ok {A} a.
Arguments Throw {A} e.

Global Instance Result_ret : MRet Result := fun A a => Ok a.
Global Instance Result_bind : MBind Result := fun A B k r =>
  match r with Ok a => k a | Throw e => Throw e end.

(** [try { body } catch { handler }] where the handler ignores the error. *)
Definition try_catch {A} (body : Result A) (handler : A) : A :=
  match body with Ok a => a | Throw _ => handler end.

(* ===================================================================== *)
(** ** JSON values, dates and objects                                      *)
(* ===================================================================== *)

(** What [JSON.parse] returns.  Numbers are the integers. *)
#[warnings="-register-all"]
Inductive JSON : Type :=
| JNull
| JBool (b : bool)
| JNum (n : Z)
| JStr (s : string)
| JArr (elements : list JSON)
| JObj (members : list (string * JSON)).

(** The names of the members of every object within [j] are distinct, as
    they are in a value built by [JSON.parse]. *)
Fixpoint json_wf (j : JSON) : bool :=
  match j with
  | JArr elements => forallb json_wf elements
  | JObj members =>
      bool_decide (NoDup (map fst members))
      && forallb (fun '(_, v) => json_wf v) members
  | _ => true
  end.

(** The number of values and members within [j]. *)
Fixpoint json_size (j : JSON) : nat :=
  match j with
  | JArr elements =>
      S (fold_right (fun x n => S (json_size x + n)) O elements)
  | JObj members =>
      S (fold_right (fun '(_, v) n => S (json_size v + n)) O members)
  | _ => 1
  end.

(** A [Date] object: a time value in milliseconds since the epoch, or
    the invalid date (time value NaN). *)
Inductive Date : Type :=
| InvalidDate
| TimeValue (ms : Z).

(** [TimeClip]: time values beyond 8.64e15 ms are not dates. *)
Definition time_clip (n : Z) : Date :=
  if (Z.abs n <=? 8640000000000000) then TimeValue n else InvalidDate.

(** The values a property of a message object holds. *)
Inductive Value : Type :=
| Undefined
| DateV (d : Date)
| Json (j : JSON).

(** An object: its own enumerable properties in insertion order. *)
Definition Obj := list (string * Value).

Module Object.

(** [o.k]: [undefined] when [k] is not a property of [o]. *)
Fixpoint get (k : string) (o : Obj) : Value :=
  match o with
  | [] => Undefined
  | (k', v) :: r => if String.eqb k k' then v else get k r
  end.

(** [o.k = v]: overwrite in place, or add at the end. *)
Fixpoint set (k : string) (v : Value) (o : Obj) : Obj :=
  match o with
  | [] => [(k, v)]
  | (k', v') :: r =>
      if String.eqb k k' then (k', v) :: r else (k', v') :: set k v r
  end.

Definition keys (o : Obj) : list string := map fst o.

(** Index-keyed properties "0", "1", ... of an array or a string. *)
Fixpoint indexed (i : N) (l : list JSON) : Obj :=
  match l with
  | [] => []
  | x :: r => (pretty i, Json x) :: indexed (N.succ i) r
  end.

(** The own enumerable properties of a JSON value, as an object spread
    [{...v}] copies them, in the order of the text (an engine lists the
    names that are array indices first; the statements read properties by
    name, never by position). *)
Definition own_properties (j : JSON) : Obj :=
  match j with
  | JObj members => map (fun kv => (fst kv, Json (snd kv))) members
  | JArr elements => indexed 0%N elements
  | JStr s => indexed 0%N (map JStr (JsString.chars s))
  | JNull | JBool _ | JNum _ => []
  end.

(** Property read [v.k] on a JSON value: a TypeError on [null], the own
    property otherwise (the keys read by the component, "answer",
    "source" and "timestamp", are on no prototype). *)
Definition property (j : JSON) (k : string) : Result Value :=
  match j with
  | JNull => Throw TypeError
  | _ => Ok (get k (own_properties j))
  end.

End Object.

(* ===================================================================== *)
(** ** Reference implementations of the browser's text-level builtins     *)
(* ===================================================================== *)

(** The component below is parametric in these builtins.  The functions of
    this module are executable stand-ins for them: JSON text over the
    integer fragment of the grammar, and the ISO 8601 format of
    [Date.prototype.toISOString].  They stand for the builtins on the
    texts they print themselves, which is where the statements use them:
    [JSON.parse] also reads fractions, exponents and every escape, rounds
    integers beyond 2^53, and the [Date] constructor reads other date
    formats; such texts are outside this fragment. *)
Module Ref.

Definition digit_char (n : Z) : ascii := ascii_of_nat (48 + Z.to_nat n).

(** The quotation mark, code unit 34. *)
Definition dq : ascii := "034"%char.

(** [w] decimal digits of [n], most significant first. *)
Fixpoint digits (w : nat) (n : Z) : string :=
  match w with
  | O => ""
  | S k => digits k (n / 10) +:+ String (digit_char (n mod 10)) ""
  end.

Definition digit_value (c : ascii) : option Z :=
  let n := Z.of_nat (nat_of_ascii c) in
  if (48 <=? n) && (n <=? 57) then Some (n - 48) else None.

Definition hex_value (c : ascii) : option Z :=
  let n := Z.of_nat (nat_of_ascii c) in
  if (48 <=? n) && (n <=? 57) then Some (n - 48)
  else if (65 <=? n) && (n <=? 70) then Some (n - 55)
  else if (97 <=? n) && (n <=? 102) then Some (n - 87)
  else None.

Definition hex_char (n : Z) : ascii :=
  if n <? 10 then ascii_of_nat (48 + Z.to_nat n)
  else ascii_of_nat (87 + Z.to_nat n).

(** Exactly [w] decimal digits at the head of [s]. *)
Fixpoint read_digits (w : nat) (acc : Z) (s : string) : option (Z * string) :=
  match w with
  | O => Some (acc, s)
  | S k =>
      match s with
      | String c r =>
          match digit_value c with
          | Some d => read_digits k (10 * acc + d) r
          | None => None
          end
      | EmptyString => None
      end
  end.

(** *** JSON text *)

Definition escape_char (c : ascii) : string :=
  let n := Z.of_nat (nat_of_ascii c) in
  if Ascii.eqb c dq then String "\" (String dq "")
  else if Ascii.eqb c "\" then "\\"
  else if n =? 8 then "\b"
  else if n =? 9 then "\t"
  else if n =? 10 then "\n"
  else if n =? 12 then "\f"
  else if n =? 13 then "\r"
  else if n <? 32 then
    "\u00" +:+ String (hex_char (n / 16)) (String (hex_char (n mod 16)) "")
  else String c "".

Fixpoint escape (s : string) : string :=
  match s with
  | EmptyString => ""
  | String c r => escape_char c +:+ escape r
  end.

Definition quote (s : string) : string :=
  String dq (escape s +:+ String dq "").

(** The text [JSON.stringify] emits for a JSON value. *)
Fixpoint JSON_text (j : JSON) : string :=
  match j with
  | JNull => "null"
  | JBool true => "true"
  | JBool false => "false"
  | JNum n => pretty n
  | JStr s => quote s
  | JArr elements => "[" +:+ JsString.join "," (map JSON_text elements) +:+ "]"
  | JObj members =>
      "{" +:+ JsString.join ","
                (map (fun '(k, v) => quote k +:+ ":" +:+ JSON_text v) members)
          +:+ "}"
  end.

Fixpoint skip_ws (s : string) : string :=
  match s with
  | String c r =>
      let n := nat_of_ascii c in
      if (n =? 32)%nat || (n =? 9)%nat || (n =? 10)%nat || (n =? 13)%nat
      then skip_ws r else s
  | EmptyString => s
  end.

Fixpoint strip_prefix (p s : string) : option string :=
  match p, s with
  | EmptyString, _ => Some s
  | String a p', String b s' => if Ascii.eqb a b then strip_prefix p' s' else None
  | String _ _, EmptyString => None
  end.

(** The characters of a string literal up to its closing quote. *)
Fixpoint read_string (s : string) : option (string * string) :=
  match s with
  | EmptyString => None
  | String c r =>
      if Ascii.eqb c dq then Some ("", r)
      else if Ascii.eqb c "\" then
        match r with
        | String e r2 =>
            let cons (x : ascii) (rest : option (string * string)) :=
              match rest with
              | Some (t, r') => Some (String x t, r')
              | None => None
              end in
            if Ascii.eqb e "u" then
              match r2 with
              | String h1 (String h2 (String h3 (String h4 r6))) =>
                  match hex_value h1, hex_value h2, hex_value h3, hex_value h4 with
                  | Some 0, Some 0, Some a, Some b =>
                      cons (ascii_of_nat (Z.to_nat (16 * a + b))) (read_string r6)
                  | _, _, _, _ => None
                  end
              | _ => None
              end
            else if Ascii.eqb e dq then cons dq (read_string r2)
            else if Ascii.eqb e "\" then cons "\"%char (read_string r2)
            else if Ascii.eqb e "/" then cons "/"%char (read_string r2)
            else if Ascii.eqb e "b" then cons "008"%char (read_string r2)
            else if Ascii.eqb e "t" then cons "009"%char (read_string r2)
            else if Ascii.eqb e "n" then cons "010"%char (read_string r2)
            else if Ascii.eqb e "f" then cons "012"%char (read_string r2)
            else if Ascii.eqb e "r" then cons "013"%char (read_string r2)
            else None
        | EmptyString => None
        end
      else if (nat_of_ascii c <? 32)%nat then None
      else
        match read_string r with
        | Some (t, r') => Some (String c t, r')
        | None => None
        end
  end.

(** The decimal digits at the head of [s]. *)
Fixpoint read_number (acc : Z) (s : string) : Z * string :=
  match s with
  | String c r =>
      match digit_value c with
      | Some d => read_number (10 * acc + d) r
      | None => (acc, s)
      end
  | EmptyString => (acc, s)
  end.

Definition starts_with_digit (s : string) : bool :=
  match s with
  | String c _ => match digit_value c with Some _ => true | None => false end
  | EmptyString => false
  end.

(** A fraction or an exponent follows. *)
Definition continues_number (s : string) : bool :=
  match s with
  | String c _ => Ascii.eqb c "." || Ascii.eqb c "e" || Ascii.eqb c "E"
  | EmptyString => false
  end.

(** An unsigned integer literal: no leading zero, no fraction, no
    exponent. *)
Definition read_unsigned (s : string) : option (Z * string) :=
  match s with
  | String c r =>
      match digit_value c with
      | Some d =>
          if (d =? 0) && starts_with_digit r then None
          else
            let '(n, rest) := read_number 0 s in
            if continues_number rest then None else Some (n, rest)
      | None => None
      end
  | EmptyString => None
  end.

Definition read_int (s : string) : option (Z * string) :=
  match s with
  | String "-" r => '(n, rest) ← read_unsigned r; Some (- n, rest)
  | _ => read_unsigned s
  end.

(** The characters a JSON value can start with. *)
Definition value_start (c : ascii) : bool :=
  Ascii.eqb c "n" || Ascii.eqb c "t" || Ascii.eqb c "f" || Ascii.eqb c dq
  || Ascii.eqb c "[" || Ascii.eqb c "{" || Ascii.eqb c "-"
  || match digit_value c with Some _ => true | None => false end.

(** What follows a value inside an array or an object, or at the end of
    the text. *)
Definition terminated (s : string) : bool :=
  match s with
  | String c _ => Ascii.eqb c "," || Ascii.eqb c "]" || Ascii.eqb c "}"
  | EmptyString => true
  end.

(** A later member with the same name replaces the earlier one. *)
Fixpoint put_member (k : string) (v : JSON) (l : list (string * JSON))
  : list (string * JSON) :=
  match l with
  | [] => [(k, v)]
  | (k', v') :: r =>
      if String.eqb k k' then (k', v) :: r else (k', v') :: put_member k v r
  end.

Fixpoint read_value (fuel : nat) (s : string) : option (JSON * string) :=
  match fuel with
  | O => None
  | S fuel =>
      match skip_ws s with
      | EmptyString => None
      | String c r =>
          if Ascii.eqb c "n" then
            r' ← strip_prefix "null" (String c r); Some (JNull, r')
          else if Ascii.eqb c "t" then
            r' ← strip_prefix "true" (String c r); Some (JBool true, r')
          else if Ascii.eqb c "f" then
            r' ← strip_prefix "false" (String c r); Some (JBool false, r')
          else if Ascii.eqb c dq then
            '(t, r') ← read_string r; Some (JStr t, r')
          else if Ascii.eqb c "[" then
            match skip_ws r with
            | String c' r' =>
                if Ascii.eqb c' "]" then Some (JArr [], r')
                else '(l, r'') ← read_elements fuel [] r; Some (JArr l, r'')
            | EmptyString => None
            end
          else if Ascii.eqb c "{" then
            match skip_ws r with
            | String c' r' =>
                if Ascii.eqb c' "}" then Some (JObj [], r')
                else '(l, r'') ← read_members fuel [] r; Some (JObj l, r'')
            | EmptyString => None
            end
          else '(n, r') ← read_int (String c r); Some (JNum n, r')
      end
  end
with read_elements (fuel : nat) (acc : list JSON) (s : string)
  : option (list JSON * string) :=
  match fuel with
  | O => None
  | S fuel =>
      '(v, r) ← read_value fuel s;
      match skip_ws r with
      | String c r' =>
          if Ascii.eqb c "," then read_elements fuel (acc ++ [v]) r'
          else if Ascii.eqb c "]" then Some (acc ++ [v], r')
          else None
      | EmptyString => None
      end
  end
with read_members (fuel : nat) (acc : list (string * JSON)) (s : string)
  : option (list (string * JSON) * string) :=
  match fuel with
  | O => None
  | S fuel =>
      match skip_ws s with
      | String c r =>
          if Ascii.eqb c dq then
            '(k, r1) ← read_string r;
            match skip_ws r1 with
            | String c1 r2 =>
                if Ascii.eqb c1 ":" then
                  '(v, r3) ← read_value fuel r2;
                  match skip_ws r3 with
                  | String c3 r' =>
                      if Ascii.eqb c3 "," then
                        read_members fuel (put_member k v acc) r'
                      else if Ascii.eqb c3 "}" then
                        Some (put_member k v acc, r')
                      else None
                  | EmptyString => None
                  end
                else None
            | EmptyString => None
            end
          else None
      | EmptyString => None
      end
  end.

(** [JSON.parse]: [None] stands for the SyntaxError. *)
Definition JSON_parse (s : string) : option JSON :=
  '(j, r) ← read_value (2 * String.length s + 2) s;
  if JsString.is_empty (skip_ws r) then Some j else None.

(** *** ISO 8601 date-time strings *)

Definition ms_per_day : Z := 86400000.

(** Days since the epoch to (year, month, day) of the proleptic
    Gregorian calendar. *)
Definition civil_from_days (z : Z) : Z * Z * Z :=
  let z := z + 719468 in
  let era := z / 146097 in
  let doe := z mod 146097 in
  let yoe := (doe - doe / 1460 + doe / 36524 - doe / 146096) / 365 in
  let doy := doe - (365 * yoe + yoe / 4 - yoe / 100) in
  let mp := (5 * doy + 2) / 153 in
  let d := doy - (153 * mp + 2) / 5 + 1 in
  let m := if mp <? 10 then mp + 3 else mp - 9 in
  let y := yoe + era * 400 in
  (if m <=? 2 then y + 1 else y, m, d).

Definition days_from_civil (y m d : Z) : Z :=
  let y := if m <=? 2 then y - 1 else y in
  let era := y / 400 in
  let yoe := y mod 400 in
  let doy := (153 * (if 2 <? m then m - 3 else m + 9) + 2) / 5 + d - 1 in
  let doe := yoe * 365 + yoe / 4 - yoe / 100 + doy in
  era * 146097 + doe - 719468.

Definition is_leap (y : Z) : bool :=
  ((y mod 4 =? 0) && negb (y mod 100 =? 0)) || (y mod 400 =? 0).

Definition days_in_month (y m : Z) : Z :=
  if m =? 2 then (if is_leap y then 29 else 28)
  else if (m =? 4) || (m =? 6) || (m =? 9) || (m =? 11) then 30 else 31.

(** [Date.prototype.toISOString] on a time value. *)
Definition toISOString (t : Z) : string :=
  let '(y, m, d) := civil_from_days (t / ms_per_day) in
  let r := t mod ms_per_day in
  let year :=
    if (0 <=? y) && (y <=? 9999) then digits 4 y
    else (if y <? 0 then "-" else "+") +:+ digits 6 (Z.abs y) in
  year +:+ "-" +:+ digits 2 m +:+ "-" +:+ digits 2 d +:+ "T"
    +:+ digits 2 (r / 3600000) +:+ ":" +:+ digits 2 (r / 60000 mod 60)
    +:+ ":" +:+ digits 2 (r / 1000 mod 60) +:+ "." +:+ digits 3 (r mod 1000)
    +:+ "Z".

Definition read_year (s : string) : option (Z * string) :=
  match s with
  | String "+" r => read_digits 6 0 r
  | String "-" r => '(y, r') ← read_digits 6 0 r; Some (- y, r')
  | _ => read_digits 4 0 s
  end.

Definition read_iso (s : string) : option Z :=
  '(y, s) ← read_year s;
  s ← strip_prefix "-" s; '(m, s) ← read_digits 2 0 s;
  s ← strip_prefix "-" s; '(d, s) ← read_digits 2 0 s;
  s ← strip_prefix "T" s; '(hh, s) ← read_digits 2 0 s;
  s ← strip_prefix ":" s; '(mm, s) ← read_digits 2 0 s;
  s ← strip_prefix ":" s; '(ss, s) ← read_digits 2 0 s;
  s ← strip_prefix "." s; '(ms, s) ← read_digits 3 0 s;
  if String.eqb s "Z" && (1 <=? m) && (m <=? 12) && (1 <=? d)
     && (d <=? days_in_month y m) && (hh <=? 23) && (mm <=? 59) && (ss <=? 59)
  then Some (days_from_civil y m d * ms_per_day
             + hh * 3600000 + mm * 60000 + ss * 1000 + ms)
  else None.

(** The [Date] constructor on a string: the date-time format of
    [toISOString]; every other string gives the invalid date. *)
Definition Date_parse (s : string) : Date :=
  match read_iso s with
  | Some t => time_clip t
  | None => InvalidDate
  end.

End Ref.

(** A markdown renderer that renders every content, for the sessions
    computed below. *)
Definition renders_every_content (v : Value) : bool := true.

(* ===================================================================== *)
(** ** markdown.tsx: the code renderer                                     *)
(* ===================================================================== *)

Module Markdown.

(** [React.ReactNode]: what the [children] prop can hold. *)
#[warnings="-register-all"]
Inductive ReactNode : Type :=
| RText (s : string)
| RNumber (n : Z)
| RBoolean (b : bool)
| RNull
| RUndefined
| RElement (tag : string) (children : list ReactNode)
| RArray (items : list ReactNode).

(** [String(x)].  An element is a plain object; an array prints as
    [join(",")], in which [null] and [undefined] print as nothing. *)
Fixpoint toString (x : ReactNode) : string :=
  match x with
  | RText s => s
  | RNumber n => pretty n
  | RBoolean true => "true"
  | RBoolean false => "false"
  | RNull => "null"
  | RUndefined => "undefined"
  | RElement _ _ => "[object Object]"
  | RArray items =>
      JsString.join ","
        (map (fun i => match i with
                       | RNull | RUndefined => ""
                       | _ => toString i
                       end) items)
  end.

(** [items.join(sep)] *)
Definition array_join (sep : string) (items : list ReactNode) : string :=
  JsString.join sep
    (map (fun i => match i with
                   | RNull | RUndefined => ""
                   | _ => toString i
                   end) items).

(** The text a node displays once rendered, which is what [innerText]
    of the enclosing [<code>] reads back in [copyToClipboard]. *)
Fixpoint text_content (x : ReactNode) : string :=
  match x with
  | RText s => s
  | RNumber n => pretty n
  | RBoolean _ | RNull | RUndefined => ""
  | RElement _ children => JsString.join "" (map text_content children)
  | RArray items => JsString.join "" (map text_content items)
  end.

(** [String(Array.isArray(children) ? children.join("") : children).trim()] *)
Definition childString (children : ReactNode) : string :=
  JsString.trim
    match children with
    | RArray items => array_join "" items
    | _ => toString children
    end.

Definition shouldShowCopyButton (children : ReactNode) : bool :=
  (50 <? String.length (childString children))%nat.

(** What [CopyableCodeBlock] returns: the copy button, when shown, with
    its label, and the [<pre><code>] holding the children. *)
Record CodeBlock : Type := {
  copy_button : option string;
  code_className : string;
  code_children : ReactNode
}.

Definition CopyableCodeBlock (copied : bool) (className : option string)
    (children : ReactNode) : CodeBlock :=
  {| copy_button :=
       if shouldShowCopyButton children
       then Some (if copied then "Copied!" else "Copy")
       else None;
     code_className := default "" className;
     code_children := children |}.

Inductive CodeView : Type :=
| Block (b : CodeBlock)
| Inline (className : string) (children : ReactNode).

(** [className?.startsWith("language-")] *)
Definition isCodeBlock (className : option string) : bool :=
  match className with
  | Some c => JsString.startsWith "language-" c
  | None => false
  end.

(** The [code] component handed to the markdown renderer. *)
Definition code (copied : bool) (className : option string)
    (children : ReactNode) : CodeView :=
  if isCodeBlock className
  then Block (CopyableCodeBlock copied className children)
  else Inline (default "" className) children.

(** Children that are text only: a string, or an array of strings. *)
Definition is_plain_text (children : ReactNode) : bool :=
  match children with
  | RText _ => true
  | RArray items =>
      forallb (fun i => match i with RText _ => true | _ => false end) items
  | _ => false
  end.

(** Whether the rendered code element offers the copy control. *)
Definition shows_copy_control (v : CodeView) : bool :=
  match v with
  | Block b => match copy_button b with Some _ => true | None => false end
  | Inline _ _ => false
  end.

(** What [copyToClipboard] reads and writes: the [copied] flag of the
    block, the system clipboard, the due times of the timeouts set and not
    yet run, and the time, in milliseconds. *)
Record CopyState : Type := {
  copied : bool;
  clipboard : string;
  timeouts : list Z;
  clock : Z
}.

(** [copyToClipboard].  [codeRef] holds the rendered children while the
    [<code>] element is mounted; [written] tells whether the promise of
    [navigator.clipboard.writeText] resolves (when it rejects, the function
    ends there). *)
Definition copyToClipboard (codeRef : option ReactNode) (written : bool)
    (st : CopyState) : CopyState :=
  match codeRef with
  | None => st
  | Some children =>
      if written then
        {| copied := true;
           clipboard := text_content children;
           timeouts := timeouts st ++ [clock st + 2000];
           clock := clock st |}
      else st
  end.

(** [d] milliseconds pass: the timeouts that are due run, each calling
    [setCopied(false)]. *)
Definition elapse (d : N) (st : CopyState) : CopyState :=
  let t := clock st + Z.of_N d in
  {| copied := if existsb (fun due => due <=? t) (timeouts st) then false
               else copied st;
     clipboard := clipboard st;
     timeouts := List.filter (fun due => negb (due <=? t)) (timeouts st);
     clock := t |}.

Inductive CopyEvent : Type :=
| CopyClicked (codeRef : option ReactNode) (written : bool)
| TimePassed (d : N).

Definition copy_step (ev : CopyEvent) (st : CopyState) : CopyState :=
  match ev with
  | CopyClicked codeRef written => copyToClipboard codeRef written st
  | TimePassed d => elapse d st
  end.

Definition copy_run (evs : list CopyEvent) (st : CopyState) : CopyState :=
  fold_left (fun st ev => copy_step ev st) evs st.

(** A freshly mounted block: [useState(false)], no timeout set. *)
Definition copy_initial (clip : string) (t : Z) : CopyState :=
  {| copied := false; clipboard := clip; timeouts := []; clock := t |}.

End Markdown.

(* ===================================================================== *)
(** ** chat-ui.tsx                                                         *)
(* ===================================================================== *)

(** [localStorage]: string-keyed string entries under a size quota. *)
Record Storage : Type := {
  items : gmap string string;
  quota : N
}.

Module LocalStorage.

Definition usage (m : gmap string string) : N :=
  map_fold (fun k v n => (N.of_nat (String.length k + String.length v) + n)%N)
           0%N m.

Definition getItem (k : string) (ls : Storage) : option string :=
  items ls !! k.

(** The write is refused, with a QuotaExceededError, when the entries
    would take more room than the quota. *)
Definition setItem (k v : string) (ls : Storage) : Result Storage :=
  let m := <[k := v]> (items ls) in
  if (usage m <=? quota ls)%N
  then Ok {| items := m; quota := quota ls |}
  else Throw QuotaExceededError.

Definition removeItem (k : string) (ls : Storage) : Storage :=
  {| items := delete k (items ls); quota := quota ls |}.

End LocalStorage.

(** The global object: [None] where [typeof window === "undefined"]. *)
Definition Window := option Storage.

Definition Message := Obj.

(** An object built by [JSON.parse] whose member "toString" hides
    [Object.prototype.toString]: the member is no function, [valueOf]
    gives no primitive either, so [ToPrimitive] throws a TypeError. *)
Definition hides_toString (members : list (string * JSON)) : bool :=
  existsb (String.eqb "toString") (map fst members).

(** [String(v)] of a JSON value, as [ToPrimitive] computes it for the
    [Date] constructor: an array prints as [join(",")], in which [null]
    prints as nothing and every other element as its own string. *)
Fixpoint js_toString (j : JSON) : Result string :=
  match j with
  | JNull => Ok "null"
  | JBool true => Ok "true"
  | JBool false => Ok "false"
  | JNum n => Ok (pretty n)
  | JStr s => Ok s
  | JArr elements =>
      parts ← mapM (fun x => match x with
                             | JNull => Ok ""
                             | _ => js_toString x
                             end) elements;
      mret (JsString.join "," parts)
  | JObj members =>
      if hides_toString members then Throw TypeError
      else Ok "[object Object]"
  end.

(** Whether [String(j)] goes through: no object that hides [toString]
    is printed.  The members of an object are not looked at otherwise;
    the elements of an array are, except [null]. *)
Fixpoint prints (j : JSON) : bool :=
  match j with
  | JObj members => negb (hides_toString members)
  | JArr elements => forallb prints elements
  | _ => true
  end.

Record Response : Type := {
  status : nat;
  body : string
}.

(** [response.ok]: the status is in the range 200-299. *)
Definition ok (r : Response) : bool :=
  (200 <=? status r)%nat && (status r <=? 299)%nat.

(** How the promise returned by [fetch] settles. *)
Inductive FetchOutcome : Type :=
| Rejected
| Resolved (r : Response).

Record Request : Type := {
  url : string;
  method : string;
  content_type : string;
  payload : string
}.

(** The clock and random readings one message construction consumes:
    [Date.now()] and [Math.random().toString(36).substring(2, 9)] in
    [generateId], then [new Date()]. *)
Record Entropy : Type := {
  id_now : Z;
  id_random : string;
  now : Z
}.

(** The state of a mounted [ChatUI] together with the storage of its
    page and the requests issued and not yet settled. *)
Record World : Type := {
  messages : list Message;
  input : string;
  isLoading : bool;
  isHydrated : bool;
  localStorage : Storage;
  inflight : list Request
}.

Definition STORAGE_KEY : string := "threecoders-chat-history".

Definition apology : string :=
  "Sorry, I encountered an error. Please try again.".

Definition suggestions : list string :=
  ["How can you help me?"; "What sources do you use?";
   "Tell me about ThreeCoders"].

Definition generateId (e : Entropy) : string :=
  pretty (id_now e) +:+ "-" +:+ id_random e.

(** What a control does when activated. *)
Inductive Handler : Type :=
| CallSendMessage (text : string)
| CallClearHistory.

Record Button : Type := {
  label : string;
  onClick : Handler
}.

(** The parts of the rendered tree that depend on the state. *)
Record View : Type := {
  suggestion_buttons : list Button;
  thinking_indicator : bool;
  clear_button : option Button;
  input_disabled : bool;
  submit_disabled : bool
}.

Definition render (w : World) : View :=
  {| suggestion_buttons :=
       if (length (messages w) =? 0)%nat && negb (isLoading w)
       then map (fun s => {| label := s; onClick := CallSendMessage s |})
                suggestions
       else [];
     thinking_indicator := isLoading w;
     clear_button :=
       if (0 <? length (messages w))%nat
       then Some {| label := "Clear chat history"; onClick := CallClearHistory |}
       else None;
     input_disabled := isLoading w;
     submit_disabled :=
       isLoading w || negb (JsString.truthy (JsString.trim (input w))) |}.

(** Truthiness of a property value. *)
Definition truthy_value (v : Value) : bool :=
  match v with
  | Undefined => false
  | DateV _ => true
  | Json JNull => false
  | Json (JBool b) => b
  | Json (JNum n) => negb (n =? 0)
  | Json (JStr s) => JsString.truthy s
  | Json (JArr _) | Json (JObj _) => true
  end.

(** Whether React can put a JSON value among the children of an
    element: text and numbers are shown, booleans and [null] show
    nothing, an array is shown child by child, and an object is refused
    ("Objects are not valid as a React child"). *)
Fixpoint react_child_ok (j : JSON) : bool :=
  match j with
  | JObj _ => false
  | JArr elements => forallb react_child_ok elements
  | _ => true
  end.

(** The same for a property value: [undefined] shows nothing, a [Date]
    is an object. *)
Definition renders_as_child (v : Value) : bool :=
  match v with
  | Undefined => true
  | DateV _ => false
  | Json j => react_child_ok j
  end.

Definition invalid_child : Exn :=
  Error "Objects are not valid as a React child".

(** What [!isUser && message.source && <span>Source: ...</span>] puts
    under a bubble: nothing, the number 0 when that is the source (React
    renders a number), or the source line. *)
Inductive SourceSlot : Type :=
| NoSourceLine
| LeakedZero
| SourceLine (source : Value).

(** The parts of [MessageBubble] that depend on the message;
    [bubble_content] is what is handed to [MarkdownMessage], whose own
    rendering is not part of [MessageBubble]. *)
Record Bubble : Type := {
  isUser : bool;
  bubble_content : Value;
  source_slot : SourceSlot
}.

(** [MessageBubble] and the rendering of what it returns: React throws
    when the source put after "Source: " is no valid child. *)
Definition MessageBubble (message : Message) : Result Bubble :=
  let isUser :=
    match Object.get "role" message with
    | Json (JStr r) => String.eqb r "user"
    | _ => false
    end in
  let source := Object.get "source" message in
  slot ← (if isUser then Ok NoSourceLine
          else if truthy_value source then
            if renders_as_child source then Ok (SourceLine source)
            else Throw invalid_child
          else match source with
               | Json (JNum _) => Ok LeakedZero
               | _ => Ok NoSourceLine
               end);
  mret {| isUser := isUser;
          bubble_content := Object.get "content" message;
          source_slot := slot |}.

(** Concrete data for the closed examples. *)
Module Demo.

(** A storage too small for any history. *)
Definition tiny_storage : Storage := {| items := ∅; quota := 10 |}.

(** A stored array whose second element is [null]. *)
Definition null_element_storage : Storage :=
  {| items :=
       {[ STORAGE_KEY :=
            Ref.JSON_text (JArr [JObj [("content", JStr "kept?")]; JNull]) ]};
     quota := 5000000 |}.

Definition empty_storage : Storage := {| items := ∅; quota := 5000000 |}.

(** A stored history whose only element has, as timestamp, an object
    with a member "toString". *)
Definition hidden_toString_storage : Storage :=
  {| items :=
       {[ STORAGE_KEY :=
            Ref.JSON_text
              (JArr [JObj [("role", JStr "bot");
                           ("timestamp", JObj [("toString", JNum 1)])]]) ]};
     quota := 5000000 |}.

(** A stored history whose timestamps are no date strings: [null], a
    number, none at all (the element is a number), and a string. *)
Definition odd_timestamps : list JSON :=
  [ JObj [("role", JStr "bot"); ("timestamp", JNull)];
    JObj [("timestamp", JNum 5); ("content", JStr "five")];
    JNum 7;
    JObj [("timestamp", JStr "2024-11-01T19:00:00.123Z")] ].

Definition odd_timestamps_storage : Storage :=
  {| items := {[ STORAGE_KEY := Ref.JSON_text (JArr odd_timestamps) ]};
     quota := 5000000 |}.

(** A 2xx response whose source is an object. *)
Definition object_source : Response :=
  {| status := 200;
     body := Ref.JSON_text
               (JObj [("answer", JStr "hi");
                      ("source", JObj [("doc", JStr "a")])]) |}.

(** A storage that holds an entry of another part of the page. *)
Definition themed_storage : Storage :=
  {| items := {["theme" := "dark"]}; quota := 5000000 |}.

Definition corrupt_storage : Storage :=
  {| items := {[ STORAGE_KEY := "<<not json>>" ]}; quota := 5000000 |}.

Definition number_storage : Storage :=
  {| items := {[ STORAGE_KEY := "42" ]}; quota := 5000000 |}.

Definition e1 : Entropy :=
  {| id_now := 1730487600123; id_random := "k3j9x0a"; now := 1730487600123 |}.
Definition e2 : Entropy :=
  {| id_now := 1730487601456; id_random := "q81mzp4"; now := 1730487601457 |}.

(** The body [{ answer: "hi", source: "WEB" }] with status 200. *)
Definition success : Response :=
  {| status := 200;
     body := Ref.JSON_text (JObj [("answer", JStr "hi"); ("source", JStr "WEB")]) |}.

(** A 2xx response whose JSON body is the object [{}]. *)
Definition no_answer : Response := {| status := 200; body := "{}" |}.

Definition server_error : Response := {| status := 500; body := "oops" |}.

(** One highlighted line of 60 characters, as a [<span>] element. *)
Definition sixty : string :=
  "const total = items.reduce((sum, x) => sum + x.price, 0.00);".
Definition highlighted_line : Markdown.ReactNode :=
  Markdown.RElement "span" [Markdown.RText sixty].

(** Four highlighted lines, 35 characters of code in all. *)
Definition four_lines : Markdown.ReactNode :=
  Markdown.RArray
    [ Markdown.RElement "span" [Markdown.RText "let a=1;" ; Markdown.RText (String "010" "")];
      Markdown.RElement "span" [Markdown.RText "let b=2;" ; Markdown.RText (String "010" "")];
      Markdown.RElement "span" [Markdown.RText "let c=3;" ; Markdown.RText (String "010" "")];
      Markdown.RElement "span" [Markdown.RText "let d=4;" ; Markdown.RText (String "010" "")] ].

Definition forty : string := "function add(a, b) { return a + b + 1; }".

End Demo.

Section ChatUI.

(** [JSON.parse] on a text; [None] is the SyntaxError. *)
Variable JSON_parse : string -> option JSON.
(** The text [JSON.stringify] emits for a JSON value. *)
Variable JSON_text : JSON -> string.
(** The [Date] constructor applied to a string. *)
Variable Date_parse : string -> Date.
(** [Date.prototype.toISOString] on a time value. *)
Variable toISOString : Z -> string.
(** [process.env.NEXT_PUBLIC_API_KEY] *)
Variable NEXT_PUBLIC_API_KEY : option string.
(** Whether [MarkdownMessage] renders a content without throwing.  It
    hands the content to the markdown renderer of a library, with a
    highlighter plugged in; what these make of a content is not in the
    files of the component. *)
Variable MarkdownMessage_renders : Value -> bool.

(** [new Date(v)]: a primitive other than a string is converted to a
    number, a string is parsed, and an array or object goes through
    [ToPrimitive] first, which can throw. *)
Definition new_Date (v : Value) : Result Date :=
  match v with
  | Undefined => Ok InvalidDate
  | DateV d => Ok d
  | Json JNull => Ok (TimeValue 0)
  | Json (JBool b) => Ok (TimeValue (if b then 1 else 0))
  | Json (JNum n) => Ok (time_clip n)
  | Json (JStr s) => Ok (Date_parse s)
  | Json j => s ← js_toString j; mret (Date_parse s)
  end.

(** [Date.prototype.toJSON] and the treatment of [undefined] by
    [JSON.stringify]: a property holding [undefined] is left out. *)
Definition serialize_property (v : Value) : option JSON :=
  match v with
  | Undefined => None
  | DateV InvalidDate => Some JNull
  | DateV (TimeValue t) => Some (JStr (toISOString t))
  | Json j => Some j
  end.

Definition serialize_object (o : Obj) : JSON :=
  JObj (omap (fun '(k, v) => j ← serialize_property v; Some (k, j)) o).

(** [JSON.stringify(messages)] *)
Definition JSON_stringify (ms : list Message) : string :=
  JSON_text (JArr (map serialize_object ms)).

(** The callback of [parsed.map]:
    [{ ...msg, timestamp: new Date(msg.timestamp) }]. *)
Definition revive (msg : JSON) : Result Message :=
  let spread := Object.own_properties msg in
  ts ← Object.property msg "timestamp";
  date ← new_Date ts;
  mret (Object.set "timestamp" (DateV date) spread).

(** [parsed.map(...)]: only an array has a callable [map]. *)
Definition parsed_map (parsed : JSON) : Result (list Message) :=
  match parsed with
  | JArr elements => mapM revive elements
  | _ => Throw TypeError
  end.

Definition loadMessagesFromStorage (win : Window) : list Message :=
  match win with
  | None => []
  | Some ls =>
      try_catch
        match LocalStorage.getItem STORAGE_KEY ls with
        | None => Ok []
        | Some stored =>
            if negb (JsString.truthy stored) then Ok []
            else
              match JSON_parse stored with
              | None => Throw SyntaxError
              | Some parsed => parsed_map parsed
              end
        end
        []
  end.

Definition saveMessagesToStorage (ms : list Message) (win : Window) : Window :=
  match win with
  | None => None
  | Some ls =>
      Some (try_catch
              (LocalStorage.setItem STORAGE_KEY (JSON_stringify ms) ls)
              ls)
  end.

(** *** The component *)

Definition with_messages (ms : list Message) (w : World) : World :=
  {| messages := ms; input := input w; isLoading := isLoading w;
     isHydrated := isHydrated w; localStorage := localStorage w;
     inflight := inflight w |}.

Definition with_input (s : string) (w : World) : World :=
  {| messages := messages w; input := s; isLoading := isLoading w;
     isHydrated := isHydrated w; localStorage := localStorage w;
     inflight := inflight w |}.

Definition with_isLoading (b : bool) (w : World) : World :=
  {| messages := messages w; input := input w; isLoading := b;
     isHydrated := isHydrated w; localStorage := localStorage w;
     inflight := inflight w |}.

Definition with_isHydrated (b : bool) (w : World) : World :=
  {| messages := messages w; input := input w; isLoading := isLoading w;
     isHydrated := b; localStorage := localStorage w;
     inflight := inflight w |}.

Definition with_localStorage (ls : Storage) (w : World) : World :=
  {| messages := messages w; input := input w; isLoading := isLoading w;
     isHydrated := isHydrated w; localStorage := ls;
     inflight := inflight w |}.

Definition with_inflight (rs : list Request) (w : World) : World :=
  {| messages := messages w; input := input w; isLoading := isLoading w;
     isHydrated := isHydrated w; localStorage := localStorage w;
     inflight := rs |}.

(** The effect on [messages, isHydrated], when it runs. *)
Definition persist (w : World) : World :=
  if isHydrated w && (0 <? length (messages w))%nat
  then
    match saveMessagesToStorage (messages w) (Some (localStorage w)) with
    | Some ls => with_localStorage ls w
    | None => w
    end
  else w.

(** The render of [messages.map(...)] goes through: every bubble is
    rendered, and so is its content.  When something throws, React
    unmounts the tree and runs no effect of that render. *)
Definition commits (ms : list Message) : bool :=
  forallb (fun m => match MessageBubble m with
                    | Ok b => MarkdownMessage_renders (bubble_content b)
                    | Throw _ => false
                    end) ms.

(** A state change is followed by a render; the effect runs once the
    render is committed, and not at all when the render throws. *)
Definition after_render (w : World) : World :=
  if commits (messages w) then persist w else w.

Definition initial (ls : Storage) : World :=
  {| messages := []; input := ""; isLoading := false; isHydrated := false;
     localStorage := ls; inflight := [] |}.

(** The mount effect: load the stored history and mark the component
    hydrated; the render that follows, once committed, runs [persist]. *)
Definition mount (ls : Storage) : World :=
  let w := initial ls in
  let stored := loadMessagesFromStorage (Some (localStorage w)) in
  after_render (with_isHydrated true (with_messages stored w)).

Definition clearHistory (w : World) : World :=
  let w := with_messages [] w in
  let w := with_localStorage
             (LocalStorage.removeItem STORAGE_KEY (localStorage w)) w in
  after_render w.

Definition userMsg (e : Entropy) (userMessage : string) : Message :=
  [ ("id", Json (JStr (generateId e)));
    ("role", Json (JStr "user"));
    ("content", Json (JStr (JsString.trim userMessage)));
    ("timestamp", DateV (TimeValue (now e))) ].

Definition botMsg (e : Entropy) (answer source : Value) : Message :=
  [ ("id", Json (JStr (generateId e)));
    ("role", Json (JStr "bot"));
    ("content", answer);
    ("source", source);
    ("timestamp", DateV (TimeValue (now e))) ].

Definition errorMsg (e : Entropy) : Message :=
  [ ("id", Json (JStr (generateId e)));
    ("role", Json (JStr "bot"));
    ("content", Json (JStr apology));
    ("timestamp", DateV (TimeValue (now e))) ].

(** [process.env.NEXT_PUBLIC_API_KEY || ""] *)
Definition apiUrl : string :=
  match NEXT_PUBLIC_API_KEY with
  | Some u => if JsString.truthy u then u else ""
  | None => ""
  end.

Definition request (userMessage : string) : Request :=
  {| url := apiUrl;
     method := "POST";
     content_type := "application/json";
     payload := JSON_text (JObj [("query", JStr (JsString.trim userMessage))]) |}.

(** [sendMessage] up to its [await fetch(...)]. *)
Definition sendMessage (userMessage : string) (e : Entropy) (w : World)
  : World :=
  if negb (JsString.truthy (JsString.trim userMessage)) || isLoading w
  then w
  else
    let w := with_messages (messages w ++ [userMsg e userMessage]) w in
    let w := with_input "" w in
    let w := with_isLoading true w in
    let w := with_inflight (inflight w ++ [request userMessage]) w in
    after_render w.

(** [await response.json()] *)
Definition json (r : Response) : Result JSON :=
  match JSON_parse (body r) with
  | Some data => Ok data
  | None => Throw SyntaxError
  end.

(** The [try] block of [sendMessage] from the point where the promise
    of [fetch] has settled. *)
Definition sendMessage_try (outcome : FetchOutcome) (e : Entropy)
    (w : World) : Result World :=
  response ← match outcome with
             | Rejected => Throw NetworkError
             | Resolved r => Ok r
             end;
  if negb (ok response) then Throw (Error "Failed to get response")
  else
    data ← json response;
    answer ← Object.property data "answer";
    source ← Object.property data "source";
    mret (with_messages (messages w ++ [botMsg e answer source]) w).

(** [sendMessage] from the settlement of [fetch] on: [try], [catch]
    and [finally], then the render and its effect. *)
Definition sendMessage_settle (outcome : FetchOutcome) (e : Entropy)
    (w : World) : World :=
  let w' :=
    try_catch (sendMessage_try outcome e w)
              (with_messages (messages w ++ [errorMsg e]) w) in
  after_render (with_isLoading false w').

(** The readings passed to a handler that builds no message. *)
Definition unread : Entropy := {| id_now := 0; id_random := ""; now := 0 |}.

Definition run_handler (h : Handler) (e : Entropy) (w : World) : World :=
  match h with
  | CallSendMessage text => sendMessage text e w
  | CallClearHistory => clearHistory w
  end.

(** What can happen to a mounted component: the input changes
    ([onChange]), the form is submitted or Enter is pressed
    ([handleSubmit], [handleKeyDown]), a suggestion or the clear control
    is clicked, the pending request settles. *)
Inductive Event : Type :=
| Typed (text : string)
| Submitted (e : Entropy)
| SuggestionClicked (i : nat) (e : Entropy)
| ClearClicked
| Settled (outcome : FetchOutcome) (e : Entropy).

Definition step (ev : Event) (w : World) : World :=
  match ev with
  | Typed text => if input_disabled (render w) then w else with_input text w
  | Submitted e =>
      if input_disabled (render w) then w else sendMessage (input w) e w
  | SuggestionClicked i e =>
      match suggestion_buttons (render w) !! i with
      | Some b => run_handler (onClick b) e w
      | None => w
      end
  | ClearClicked =>
      match clear_button (render w) with
      | Some b => run_handler (onClick b) unread w
      | None => w
      end
  | Settled outcome e =>
      match inflight w with
      | [] => w
      | _ :: rest => with_inflight rest (sendMessage_settle outcome e w)
      end
  end.

Definition run (evs : list Event) (w : World) : World :=
  fold_left (fun w ev => step ev w) evs w.


(** *** Predicates used by the statements *)

(** An element of the stored array that the callback of [parsed.map]
    turns into a message: it is not [null], and the [Date] constructor
    accepts its timestamp. *)
Definition revivable (x : JSON) : bool :=
  match x with
  | JNull => false
  | _ =>
      match Object.get "timestamp" (Object.own_properties x) with
      | Json j => prints j
      | _ => true
      end
  end.

(** What [revive] makes of an element [x]: the message [m] has the own
    properties of [x], and under "timestamp" the [Date] built from the
    stored value. *)
Definition revived (x : JSON) (m : Message) : Prop :=
  (forall k, k <> "timestamp" ->
     Object.get k m = Object.get k (Object.own_properties x))
  /\ match Object.get "timestamp" (Object.own_properties x) with
     | Undefined => Object.get "timestamp" m = DateV InvalidDate
     | Json JNull => Object.get "timestamp" m = DateV (TimeValue 0)
     | Json (JBool b) =>
         Object.get "timestamp" m = DateV (TimeValue (if b then 1 else 0))
     | Json (JNum n) => Object.get "timestamp" m = DateV (time_clip n)
     | Json (JStr s) => Object.get "timestamp" m = DateV (Date_parse s)
     | _ => exists d, Object.get "timestamp" m = DateV d
     end.

(** The bubble of [m] is rendered, and so is its content. *)
Definition displayed (m : Message) : Prop :=
  exists b, MessageBubble m = Ok b
            /\ MarkdownMessage_renders (bubble_content b) = true.

(** The bubble of [m] throws, or its content does. *)
Definition render_throws (m : Message) : Prop :=
  match MessageBubble m with
  | Ok b => MarkdownMessage_renders (bubble_content b) = false
  | Throw _ => True
  end.

Definition is_date (v : Value) : bool :=
  match v with DateV _ => true | _ => false end.

(** A message object as [sendMessage] builds them: distinct property
    names, a valid date under "timestamp", no date anywhere else. *)
Definition storable (m : Message) : bool :=
  bool_decide (NoDup (Object.keys m))
  && match Object.get "timestamp" m with
     | DateV (TimeValue _) => true
     | _ => false
     end
  && forallb (fun '(k, v) => String.eqb k "timestamp" || negb (is_date v)) m.

Definition value_wf (v : Value) : bool :=
  match v with Json j => json_wf j | _ => true end.

(** A storable message whose JSON values are well formed and whose
    timestamp is within the range of time values. *)
Definition well_formed_message (m : Message) : bool :=
  storable m
  && forallb (fun '(_, v) => value_wf v) m
  && match Object.get "timestamp" m with
     | DateV (TimeValue t) => Z.abs t <=? 8640000000000000
     | _ => false
     end.

(** The time value kept under "timestamp" survives [toISOString]
    followed by the [Date] constructor. *)
Definition timestamp_revives (m : Message) : Prop :=
  match Object.get "timestamp" m with
  | DateV (TimeValue t) => Date_parse (toISOString t) = TimeValue t
  | _ => True
  end.

(** Two message objects that agree on every property read. *)
Definition same_message (m m' : Message) : Prop :=
  forall k, Object.get k m' = Object.get k m.

(** The settlements that end in the [catch] block: the promise of
    [fetch] rejects, the status is outside 200-299, the body is not
    JSON text, or the body is the JSON value [null]. *)
Definition request_failed (outcome : FetchOutcome) : Prop :=
  match outcome with
  | Rejected => True
  | Resolved r =>
      ok r = false
      \/ JSON_parse (body r) = None
      \/ JSON_parse (body r) = Some JNull
  end.

(** At most one request is outstanding, and the loading flag is set
    exactly while one is. *)
Definition single_flight (w : World) : Prop :=
  (isLoading w = false /\ inflight w = [])
  \/ (isLoading w = true /\ exists r, inflight w = [r]).


(** *** Basic facts *)

Lemma persist_messages w : messages (persist w) = messages w.
Proof.
  unfold persist.
  destruct (isHydrated w && (0 <? length (messages w))%nat); [|reflexivity].
  destruct (saveMessagesToStorage _ _); reflexivity.
Qed.

Lemma persist_isLoading w : isLoading (persist w) = isLoading w.
Proof.
  unfold persist.
  destruct (isHydrated w && (0 <? length (messages w))%nat); [|reflexivity].
  destruct (saveMessagesToStorage _ _); reflexivity.
Qed.

Lemma persist_inflight w : inflight (persist w) = inflight w.
Proof.
  unfold persist.
  destruct (isHydrated w && (0 <? length (messages w))%nat); [|reflexivity].
  destruct (saveMessagesToStorage _ _); reflexivity.
Qed.

Lemma persist_empty w : messages w = [] -> persist w = w.
Proof.
  intros H. unfold persist. rewrite H. simpl.
  rewrite andb_false_r. reflexivity.
Qed.

Lemma persist_input w : input (persist w) = input w.
Proof.
  unfold persist.
  destruct (isHydrated w && (0 <? length (messages w))%nat); [|reflexivity].
  destruct (saveMessagesToStorage _ _); reflexivity.
Qed.

Lemma persist_isHydrated w : isHydrated (persist w) = isHydrated w.
Proof.
  unfold persist.
  destruct (isHydrated w && (0 <? length (messages w))%nat); [|reflexivity].
  destruct (saveMessagesToStorage _ _); reflexivity.
Qed.

(** The render and its effect change nothing but the storage. *)
Lemma after_render_messages w : messages (after_render w) = messages w.
Proof.
  unfold after_render. destruct (commits _); [apply persist_messages|].
  reflexivity.
Qed.

Lemma after_render_isLoading w : isLoading (after_render w) = isLoading w.
Proof.
  unfold after_render. destruct (commits _); [apply persist_isLoading|].
  reflexivity.
Qed.

Lemma after_render_inflight w : inflight (after_render w) = inflight w.
Proof.
  unfold after_render. destruct (commits _); [apply persist_inflight|].
  reflexivity.
Qed.

Lemma after_render_input w : input (after_render w) = input w.
Proof.
  unfold after_render. destruct (commits _); [apply persist_input|].
  reflexivity.
Qed.

Lemma after_render_isHydrated w : isHydrated (after_render w) = isHydrated w.
Proof.
  unfold after_render. destruct (commits _); [apply persist_isHydrated|].
  reflexivity.
Qed.

Lemma after_render_empty w : messages w = [] -> after_render w = w.
Proof.
  intros H. unfold after_render. rewrite H. simpl. apply persist_empty, H.
Qed.

Lemma trim_falsy_iff s :
  JsString.truthy (JsString.trim s) = false <-> JsString.trim s = "".
Proof.
  unfold JsString.truthy. destruct (JsString.trim s); simpl; split; congruence.
Qed.

(** What the synchronous part of [sendMessage] does once past its guard. *)
Lemma sendMessage_accepted text e w :
  JsString.trim text <> "" -> isLoading w = false ->
  messages (sendMessage text e w) = messages w ++ [userMsg e text]
  /\ isLoading (sendMessage text e w) = true
  /\ input (sendMessage text e w) = ""
  /\ inflight (sendMessage text e w) = inflight w ++ [request text].
Proof.
  intros Htext Hidle. unfold sendMessage.
  assert (JsString.truthy (JsString.trim text) = true) as ->.
  { destruct (JsString.truthy (JsString.trim text)) eqn:E; [reflexivity|].
    apply trim_falsy_iff in E. contradiction. }
  rewrite Hidle. simpl.
  rewrite after_render_messages, after_render_isLoading,
    after_render_inflight, after_render_input.
  repeat split; reflexivity.
Qed.

(** The settled part appends exactly one message and ends the loading
    state, whatever the outcome. *)
Lemma sendMessage_settle_appends outcome e w :
  exists m, messages (sendMessage_settle outcome e w) = messages w ++ [m]
            /\ isLoading (sendMessage_settle outcome e w) = false.
Proof.
  unfold sendMessage_settle.
  rewrite after_render_messages, after_render_isLoading.
  destruct (sendMessage_try outcome e w) as [w'|x] eqn:E; simpl.
  - unfold sendMessage_try in E.
    destruct outcome as [|r]; simpl in E; [discriminate|].
    destruct (ok r); simpl in E; [|discriminate].
    destruct (json r) as [data|]; simpl in E; [|discriminate].
    destruct (Object.property data "answer") as [a|]; simpl in E; [|discriminate].
    destruct (Object.property data "source") as [s|]; simpl in E; [|discriminate].
    injection E as <-. eexists. split; reflexivity.
  - eexists. split; reflexivity.
Qed.

Lemma sendMessage_settle_success r data answer source e w :
  ok r = true ->
  JSON_parse (body r) = Some data ->
  Object.property data "answer" = Ok answer ->
  Object.property data "source" = Ok source ->
  messages (sendMessage_settle (Resolved r) e w)
  = messages w ++ [botMsg e answer source].
Proof.
  intros Hok Hparse Ha Hs.
  unfold sendMessage_settle. rewrite after_render_messages.
  unfold sendMessage_try, json. simpl.
  rewrite Hok, Hparse. simpl. rewrite Ha. simpl. rewrite Hs. reflexivity.
Qed.

Lemma sendMessage_settle_failure outcome e w :
  request_failed outcome ->
  messages (sendMessage_settle outcome e w) = messages w ++ [errorMsg e].
Proof.
  intros Hfail.
  unfold sendMessage_settle. rewrite after_render_messages.
  unfold sendMessage_try, json.
  destruct outcome as [|r]; simpl; [reflexivity|].
  destruct Hfail as [Hok|[Hparse|Hnull]].
  - rewrite Hok. reflexivity.
  - destruct (ok r); simpl; [|reflexivity]. rewrite Hparse. reflexivity.
  - destruct (ok r); simpl; [|reflexivity]. rewrite Hnull. reflexivity.
Qed.

Lemma trimStart_empty_iff s :
  JsString.trimStart s = "" <-> JsString.whitespace_only s = true.
Proof.
  induction s as [|c r IH]; simpl; [tauto|].
  destruct (JsString.is_white_space c); simpl; [exact IH|].
  split; discriminate.
Qed.

Lemma trimEnd_empty_iff s :
  JsString.trimEnd s = "" <-> JsString.whitespace_only s = true.
Proof.
  induction s as [|c r IH]; simpl; [tauto|].
  destruct (JsString.is_white_space c); simpl.
  - destruct (JsString.trimEnd r) eqn:E; simpl.
    + split; [intros _; apply IH; reflexivity | reflexivity].
    + split; [discriminate|]. intros H. apply IH in H. discriminate.
  - split; discriminate.
Qed.

Lemma trimStart_head s :
  JsString.whitespace_only (JsString.trimStart s) = true ->
  JsString.trimStart s = "".
Proof.
  induction s as [|c r IH]; simpl; [reflexivity|].
  destruct (JsString.is_white_space c) eqn:E; [exact IH|].
  simpl. rewrite E. discriminate.
Qed.

(** [trim] returns the empty string exactly on the texts made of white
    space only. *)
Lemma trim_empty_iff s :
  JsString.trim s = "" <-> JsString.whitespace_only s = true.
Proof.
  unfold JsString.trim. rewrite trimEnd_empty_iff. split.
  - intros H. apply trimStart_empty_iff, trimStart_head, H.
  - intros H. apply trimStart_empty_iff in H. rewrite H. reflexivity.
Qed.

Lemma append_nil_l (s : string) : "" +:+ s = s.
Proof. reflexivity. Qed.

Lemma append_cons (x : ascii) (a b : string) :
  String x a +:+ b = String x (a +:+ b).
Proof. reflexivity. Qed.

(** [trimStart] removes a prefix of white space and leaves a text that
    does not begin with white space. *)
Lemma trimStart_spec s :
  exists lead, s = lead +:+ JsString.trimStart s
               /\ JsString.whitespace_only lead = true.
Proof.
  induction s as [|c r (lead & Hr & Hlead)]; [exists ""; split; reflexivity|].
  simpl. destruct (JsString.is_white_space c) eqn:E.
  - exists (String c lead). rewrite append_cons, <- Hr. simpl.
    rewrite E, Hlead. split; reflexivity.
  - exists "". split; reflexivity.
Qed.

Lemma trimStart_first s c r :
  JsString.trimStart s = String c r -> JsString.is_white_space c = false.
Proof.
  induction s as [|x s IH]; simpl; [discriminate|].
  destruct (JsString.is_white_space x) eqn:E; [exact IH|].
  intros [= <- _]. exact E.
Qed.

(** [trimEnd] removes a suffix of white space, keeps the first character
    of what is left, and leaves a text that does not end with white
    space. *)
Lemma trimEnd_spec s :
  exists trail, s = JsString.trimEnd s +:+ trail
                /\ JsString.whitespace_only trail = true.
Proof.
  induction s as [|c r (trail & Hr & Htrail)]; [exists ""; split; reflexivity|].
  simpl.
  destruct (JsString.is_white_space c && JsString.is_empty (JsString.trimEnd r))
    eqn:E.
  - apply andb_true_iff in E as [Ec Er].
    destruct (JsString.trimEnd r); [|discriminate].
    rewrite append_nil_l in Hr. subst trail.
    exists (String c r). rewrite append_nil_l. simpl. rewrite Ec, Htrail.
    split; reflexivity.
  - exists trail. rewrite append_cons, <- Hr.
    split; [reflexivity | exact Htrail].
Qed.

Lemma trimEnd_head s c r :
  JsString.trimEnd s = String c r -> exists r', s = String c r'.
Proof.
  destruct s as [|x s]; simpl; [discriminate|].
  destruct (JsString.is_white_space x && _); [discriminate|].
  intros [= <- _]. eauto.
Qed.

Lemma trimEnd_last s : forall p c,
  JsString.trimEnd s = p +:+ String c "" -> JsString.is_white_space c = false.
Proof.
  induction s as [|x s IH]; intros p c; simpl.
  - destruct p; discriminate.
  - destruct (JsString.is_white_space x
              && JsString.is_empty (JsString.trimEnd s)) eqn:E;
      [destruct p; discriminate|].
    destruct p as [|y p].
    + rewrite append_nil_l. intros [= -> Hs]. rewrite Hs in E. simpl in E.
      rewrite andb_true_r in E. exact E.
    + rewrite append_cons. intros [= _ Hs]. exact (IH p c Hs).
Qed.

(** [trim] cuts the text between its first and its last character that
    is not white space: what is removed on either side is white space,
    and what is left neither begins nor ends with white space. *)
Lemma trim_spec s :
  (exists lead trail,
     s = lead +:+ JsString.trim s +:+ trail
     /\ JsString.whitespace_only lead = true
     /\ JsString.whitespace_only trail = true)
  /\ (forall c r, JsString.trim s = String c r ->
                  JsString.is_white_space c = false)
  /\ (forall p c, JsString.trim s = p +:+ String c "" ->
                  JsString.is_white_space c = false).
Proof.
  unfold JsString.trim. split; [|split].
  - destruct (trimStart_spec s) as (lead & Hs & Hlead).
    destruct (trimEnd_spec (JsString.trimStart s)) as (trail & Ht & Htrail).
    exists lead, trail. rewrite <- Ht. repeat split; assumption.
  - intros c r H. apply trimEnd_head in H as (r' & H).
    apply (trimStart_first s c r' H).
  - intros p c H. apply (trimEnd_last _ p c H).
Qed.

(** C2. A submit with an empty or white-space-only text, and a submit
    made while a request is in flight (the loading flag is set), does
    nothing: the whole state is unchanged, so no message is appended, no
    request is issued, and the stored history, the input field and the
    loading flag stay as they were. *)
Theorem C2_submit_noop (text : string) (e : Entropy) (w : World) :
  JsString.whitespace_only text = true \/ isLoading w = true ->
  sendMessage text e w = w.
Proof.
  intros [Hws|Hbusy]; unfold sendMessage.
  - apply trim_empty_iff in Hws. rewrite Hws. reflexivity.
  - rewrite Hbusy, orb_true_r. reflexivity.
Qed.

(** C3. A submit of a text that is not white space only, made while
    idle, appends at once a user message holding the trimmed text; when
    the request then settles with a 2xx status and a JSON body, exactly
    one assistant message is appended after the user message, its content
    the [answer] of the body and its source the [source] of the body.
    The trimmed text is the submitted text without the white space before
    its first and after its last character that is not white space. *)
Theorem C3_submit_then_success (text : string) (e1 e2 : Entropy) (w : World)
    (r : Response) (data : JSON) (answer source : Value) :
  JsString.whitespace_only text = false ->
  isLoading w = false ->
  ok r = true ->
  JSON_parse (body r) = Some data ->
  Object.property data "answer" = Ok answer ->
  Object.property data "source" = Ok source ->
  let w1 := sendMessage text e1 w in
  let w2 := sendMessage_settle (Resolved r) e2 w1 in
  messages w1 = messages w ++ [userMsg e1 text]
  /\ Object.get "role" (userMsg e1 text) = Json (JStr "user")
  /\ Object.get "content" (userMsg e1 text) = Json (JStr (JsString.trim text))
  /\ messages w2 = messages w ++ [userMsg e1 text; botMsg e2 answer source]
  /\ Object.get "role" (botMsg e2 answer source) = Json (JStr "bot")
  /\ Object.get "content" (botMsg e2 answer source) = answer
  /\ Object.get "source" (botMsg e2 answer source) = source
  /\ (exists lead trail,
        text = lead +:+ JsString.trim text +:+ trail
        /\ JsString.whitespace_only lead = true
        /\ JsString.whitespace_only trail = true)
  /\ (forall c r, JsString.trim text = String c r ->
                  JsString.is_white_space c = false)
  /\ (forall p c, JsString.trim text = p +:+ String c "" ->
                  JsString.is_white_space c = false).
Proof.
  intros Hws Hidle Hok Hparse Ha Hs w1 w2.
  destruct (trim_spec text) as (Hcut & Hfirst & Hlast).
  assert (JsString.trim text <> "") as Htrim.
  { intros H. apply trim_empty_iff in H. congruence. }
  destruct (sendMessage_accepted text e1 w Htrim Hidle) as (Hm & _).
  subst w1 w2.
  rewrite (sendMessage_settle_success r data answer source e2 _ Hok Hparse Ha Hs).
  rewrite Hm, <- app_assoc.
  repeat (split; [reflexivity|]).
  split; [exact Hcut|]. split; [exact Hfirst | exact Hlast].
Qed.

(** C1 (amended). When the request fails, that is when the promise of
    [fetch] rejects, the status is not 2xx, the body is not JSON text or
    the body is the JSON value [null], exactly one assistant message is
    appended; its content is the fixed apology and it has no source. *)
Theorem C1_failure_appends_apology (outcome : FetchOutcome) (e : Entropy)
    (w : World) :
  request_failed outcome ->
  messages (sendMessage_settle outcome e w) = messages w ++ [errorMsg e]
  /\ Object.get "role" (errorMsg e) = Json (JStr "bot")
  /\ Object.get "content" (errorMsg e) = Json (JStr apology)
  /\ Object.get "source" (errorMsg e) = Undefined
  /\ isLoading (sendMessage_settle outcome e w) = false.
Proof.
  intros Hfail. rewrite (sendMessage_settle_failure _ _ _ Hfail).
  repeat split; try reflexivity.
  destruct (sendMessage_settle_appends outcome e w) as (m & _ & H). exact H.
Qed.

(** C6. From every state, [clearHistory] empties the message sequence
    and removes the storage entry, and a load that follows returns the
    empty sequence. *)
Theorem C6_clear_then_load (w : World) :
  messages (clearHistory w) = []
  /\ LocalStorage.getItem STORAGE_KEY (localStorage (clearHistory w)) = None
  /\ loadMessagesFromStorage (Some (localStorage (clearHistory w))) = [].
Proof.
  unfold clearHistory. rewrite after_render_empty by reflexivity. simpl.
  assert (LocalStorage.getItem STORAGE_KEY
            (LocalStorage.removeItem STORAGE_KEY (localStorage w)) = None) as H.
  { unfold LocalStorage.getItem, LocalStorage.removeItem. simpl.
    apply lookup_delete_eq. }
  repeat split; [exact H|]. rewrite H. reflexivity.
Qed.

(** *** The message sequence only grows at its end, or is cleared *)

Lemma sendMessage_messages text e w :
  messages (sendMessage text e w) = messages w
  \/ messages (sendMessage text e w) = messages w ++ [userMsg e text].
Proof.
  unfold sendMessage.
  destruct (negb (JsString.truthy (JsString.trim text)) || isLoading w);
    [left; reflexivity|].
  right. rewrite after_render_messages. reflexivity.
Qed.

Lemma suggestion_button_handler w i b :
  suggestion_buttons (render w) !! i = Some b ->
  onClick b = CallSendMessage (label b).
Proof.
  unfold render. simpl.
  destruct ((length (messages w) =? 0)%nat && negb (isLoading w)).
  - destruct i as [|[|[|i]]]; simpl; intros [= <-]; reflexivity.
  - destruct i; discriminate.
Qed.

Lemma clear_button_handler w b :
  clear_button (render w) = Some b -> onClick b = CallClearHistory.
Proof.
  unfold render. simpl.
  destruct (0 <? length (messages w))%nat; intros [= <-]; reflexivity.
Qed.

(** C7. Every event leaves the message sequence either cleared as a
    whole, which only the clear control does, or equal to the former
    sequence followed by the messages the event has just built (at most
    one): the entries already present keep their place and their order,
    so the sequence lists the messages in the order of their creation.
    Hence over a run with no clear the sequence at the start is a prefix
    of the sequence at the end. *)
Theorem C7_append_or_clear (w : World) :
  (forall ev,
     (ev = ClearClicked /\ messages (step ev w) = [])
     \/ (exists new, messages (step ev w) = messages w ++ new
                     /\ (length new <= 1)%nat))
  /\ (forall evs,
        Forall (fun ev => ev <> ClearClicked) evs ->
        exists new, messages (run evs w) = messages w ++ new).
Proof.
  assert (forall w ev,
    (ev = ClearClicked /\ messages (step ev w) = [])
    \/ (exists new, messages (step ev w) = messages w ++ new
                    /\ (length new <= 1)%nat)) as Hstep.
  { clear w. intros w ev.
    assert (forall text e,
      exists new, messages (sendMessage text e w) = messages w ++ new
                  /\ (length new <= 1)%nat) as Hsend.
    { intros text e. destruct (sendMessage_messages text e w) as [H|H].
      - exists []. rewrite H, app_nil_r. split; [reflexivity | simpl; lia].
      - exists [userMsg e text]. split; [exact H | simpl; lia]. }
    assert (exists new : list Message,
      messages w = messages w ++ new /\ (length new <= 1)%nat) as Hsame.
    { exists []. rewrite app_nil_r. split; [reflexivity | simpl; lia]. }
    destruct ev as [text|e|i e| |outcome e]; unfold step.
    - right. destruct (input_disabled (render w)); exact Hsame.
    - right. destruct (input_disabled (render w)); [exact Hsame | apply Hsend].
    - right.
      destruct (suggestion_buttons (render w) !! i) as [b|] eqn:E;
        [|exact Hsame].
      rewrite (suggestion_button_handler w i b E). simpl. apply Hsend.
    - destruct (clear_button (render w)) as [b|] eqn:E.
      + left. split; [reflexivity|].
        rewrite (clear_button_handler w b E). simpl.
        unfold clearHistory. rewrite after_render_messages. reflexivity.
      + right. exact Hsame.
    - right. destruct (inflight w) as [|rq rest]; [exact Hsame|]. simpl.
      destruct (sendMessage_settle_appends outcome e w) as (m & Hm & _).
      exists [m]. split; [exact Hm | simpl; lia]. }
  split; [exact (Hstep w)|].
  intros evs. unfold run. revert w.
  induction evs as [|ev evs IH]; intros w Hno; simpl.
  - exists []. rewrite app_nil_r. reflexivity.
  - inversion Hno as [|? ? Hev Hrest]; subst.
    destruct (IH (step ev w) Hrest) as (n2 & H2).
    destruct (Hstep w ev) as [[Hc _]|(n1 & H1 & _)]; [contradiction|].
    exists (n1 ++ n2). rewrite H2, H1, app_assoc. reflexivity.
Qed.

(** *** Single flight *)

Lemma mount_single_flight ls : single_flight (mount ls).
Proof.
  left. unfold mount. rewrite after_render_isLoading, after_render_inflight.
  split; reflexivity.
Qed.

Lemma sendMessage_single_flight text e w :
  single_flight w -> single_flight (sendMessage text e w).
Proof.
  intros H. unfold sendMessage.
  destruct (negb (JsString.truthy (JsString.trim text)) || isLoading w) eqn:G;
    [exact H|].
  apply orb_false_iff in G as [_ Hidle].
  destruct H as [[_ Hq]|[Hbusy _]]; [|congruence].
  right. rewrite after_render_isLoading, after_render_inflight. simpl.
  rewrite Hq.
  split; [reflexivity | eexists; reflexivity].
Qed.

Lemma step_single_flight ev w : single_flight w -> single_flight (step ev w).
Proof.
  intros H. destruct ev as [text|e|i e| |outcome e]; unfold step.
  - destruct (input_disabled (render w)); exact H.
  - destruct (input_disabled (render w));
      [exact H | apply sendMessage_single_flight, H].
  - destruct (suggestion_buttons (render w) !! i) as [b|] eqn:E; [|exact H].
    rewrite (suggestion_button_handler w i b E). simpl.
    apply sendMessage_single_flight, H.
  - destruct (clear_button (render w)) as [b|] eqn:E; [|exact H].
    rewrite (clear_button_handler w b E). simpl.
    unfold single_flight, clearHistory.
    rewrite after_render_isLoading, after_render_inflight. exact H.
  - destruct (inflight w) as [|rq rest] eqn:Q; [exact H|].
    left. simpl. split.
    + destruct (sendMessage_settle_appends outcome e w) as (m & _ & Hl).
      exact Hl.
    + destruct H as [[_ Hq]|[_ (r & Hq)]]; congruence.
Qed.

(** X15.  In every state reached from a mount, at most one request is
    outstanding. *)
Lemma reachable_single_flight evs ls : single_flight (run evs (mount ls)).
Proof.
  unfold run. generalize (mount_single_flight ls).
  generalize (mount ls) as w. induction evs as [|ev evs IH]; intros w H.
  - exact H.
  - simpl. apply IH, step_single_flight, H.
Qed.

(** *** The suggestion shortcuts *)

(** C9 (amended). The suggestion shortcuts are shown when and only when
    the session is empty and no request is in flight; there are three of
    them, and activating one calls [sendMessage] with its text. *)
Theorem C9_suggestions (w : World) :
  (suggestion_buttons (render w) <> [] <->
     messages w = [] /\ isLoading w = false)
  /\ (suggestion_buttons (render w) <> [] ->
      map label (suggestion_buttons (render w)) = suggestions)
  /\ length suggestions = 3%nat
  /\ (forall b e, In b (suggestion_buttons (render w)) ->
        run_handler (onClick b) e w = sendMessage (label b) e w).
Proof.
  unfold render. simpl.
  destruct (messages w) as [|m ms] eqn:Hm; simpl;
    destruct (isLoading w) eqn:Hl; simpl.
  all: repeat split; try congruence; try tauto; try discriminate.
  all: try (intros [H _]; discriminate).
  all: try (intros [_ H]; discriminate).
  intros b e [<-|[<-|[<-|[]]]]; reflexivity.
Qed.

(** *** Loading the stored history *)

Lemma load_without_window : loadMessagesFromStorage None = [].
Proof. reflexivity. Qed.

(** C5. Whatever the storage holds under the key, when the entry is
    missing, is the empty string, or is a text that [JSON.parse]
    rejects, the load returns the empty sequence; being a total function
    into the message lists, it raises nothing to its caller. *)
Theorem C5_load_unreadable (ls : Storage) :
  LocalStorage.getItem STORAGE_KEY ls = None
  \/ LocalStorage.getItem STORAGE_KEY ls = Some ""
  \/ (exists stored, LocalStorage.getItem STORAGE_KEY ls = Some stored
                     /\ JSON_parse stored = None) ->
  loadMessagesFromStorage (Some ls) = [].
Proof.
  unfold loadMessagesFromStorage.
  intros [H|[H|(stored & H & Hparse)]]; rewrite H; simpl; try reflexivity.
  destruct (JsString.truthy stored); simpl; [|reflexivity].
  rewrite Hparse. reflexivity.
Qed.

(** C10. When the stored text is JSON but not an array (a number, a
    string, a boolean, [null] or an object), the call of [map] on the
    parsed value throws inside the [try] block and the load returns the
    empty sequence. *)
Theorem C10_load_non_array (ls : Storage) (stored : string) (parsed : JSON) :
  LocalStorage.getItem STORAGE_KEY ls = Some stored ->
  JSON_parse stored = Some parsed ->
  (forall elements, parsed <> JArr elements) ->
  parsed_map parsed = Throw TypeError
  /\ loadMessagesFromStorage (Some ls) = [].
Proof.
  intros Hget Hparse Hshape.
  assert (parsed_map parsed = Throw TypeError) as Hthrow.
  { destruct parsed; try reflexivity. exfalso. eapply Hshape. reflexivity. }
  split; [exact Hthrow|].
  unfold loadMessagesFromStorage. rewrite Hget.
  destruct (JsString.truthy stored); simpl; [|reflexivity].
  rewrite Hparse, Hthrow. reflexivity.
Qed.

(** *** Saving and loading back *)

Lemma get_set_eq k v o : Object.get k (Object.set k v o) = v.
Proof.
  induction o as [|[k' v'] o IH]; simpl.
  - rewrite String.eqb_refl. reflexivity.
  - destruct (String.eqb k k') eqn:E; simpl; rewrite E;
      [reflexivity | exact IH].
Qed.

Lemma get_set_ne k k' v o :
  k <> k' -> Object.get k' (Object.set k v o) = Object.get k' o.
Proof.
  intros Hne. induction o as [|[k2 v2] o IH]; simpl.
  - destruct (String.eqb k' k) eqn:E; [|reflexivity].
    apply String.eqb_eq in E. congruence.
  - destruct (String.eqb k k2) eqn:E; simpl.
    + apply String.eqb_eq in E. subst k2.
      destruct (String.eqb k' k) eqn:E2; [|reflexivity].
      apply String.eqb_eq in E2. congruence.
    + destruct (String.eqb k' k2); [reflexivity | exact IH].
Qed.

Lemma get_absent k (o : Obj) : k ∉ Object.keys o -> Object.get k o = Undefined.
Proof.
  induction o as [|[k' v] o IH]; simpl; intros Hk; [reflexivity|].
  apply not_elem_of_cons in Hk as [Hne Hk].
  destruct (String.eqb k k') eqn:E; [|exact (IH Hk)].
  apply String.eqb_eq in E. contradiction.
Qed.

Lemma get_serialized_absent k (o : Obj) :
  k ∉ Object.keys o ->
  Object.get k (Object.own_properties (serialize_object o)) = Undefined.
Proof.
  induction o as [|[k' v] o IH]; simpl; intros Hk; [reflexivity|].
  apply not_elem_of_cons in Hk as [Hne Hk]. specialize (IH Hk).
  simpl in IH. destruct (serialize_property v); simpl; [|exact IH].
  destruct (String.eqb k k') eqn:E; [|exact IH].
  apply String.eqb_eq in E. contradiction.
Qed.

(** Reading a property of the serialized object gives the serialized
    property, and [undefined] where the property was left out. *)
Lemma get_serialized k (o : Obj) :
  NoDup (Object.keys o) ->
  Object.get k (Object.own_properties (serialize_object o))
  = match serialize_property (Object.get k o) with
    | Some j => Json j
    | None => Undefined
    end.
Proof.
  induction o as [|[k' v] o IH]; simpl; intros Hnd; [reflexivity|].
  apply NoDup_cons in Hnd as [Hk' Hnd]. specialize (IH Hnd). simpl in IH.
  destruct (String.eqb k k') eqn:E.
  - apply String.eqb_eq in E. subst k'.
    destruct (serialize_property v) eqn:Ev; simpl.
    + rewrite String.eqb_refl. reflexivity.
    + apply (get_serialized_absent k o Hk').
  - destruct (serialize_property v); simpl; [rewrite E|]; exact IH.
Qed.

Lemma get_not_date k (o : Obj) :
  forallb (fun '(k, v) => String.eqb k "timestamp" || negb (is_date v)) o = true ->
  k <> "timestamp" ->
  is_date (Object.get k o) = false.
Proof.
  intros Hall Hne. induction o as [|[k' v] o IH]; simpl; [reflexivity|].
  simpl in Hall. apply andb_true_iff in Hall as [Hhead Hall].
  destruct (String.eqb k k') eqn:E; [|exact (IH Hall)].
  apply String.eqb_eq in E. subst k'.
  apply orb_true_iff in Hhead as [Hk|Hv].
  - apply String.eqb_eq in Hk. contradiction.
  - apply negb_true_iff in Hv. exact Hv.
Qed.

(** The callback of the load gives back, from the serialized form of a
    storable message, a message with the same properties. *)
Lemma revive_serialized (m : Message) :
  storable m = true -> timestamp_revives m ->
  exists m', revive (serialize_object m) = Ok m' /\ same_message m m'.
Proof.
  unfold storable, timestamp_revives. intros Hst Hrev.
  apply andb_true_iff in Hst as [Hst Hdates].
  apply andb_true_iff in Hst as [Hnd Hts].
  apply bool_decide_eq_true in Hnd.
  destruct (Object.get "timestamp" m) as [|[|t]|] eqn:Et; try discriminate.
  assert (Object.property (serialize_object m) "timestamp"
          = Ok (Json (JStr (toISOString t)))) as Hts'.
  { change (Object.property (serialize_object m) "timestamp")
      with (Ok (Object.get "timestamp"
                  (Object.own_properties (serialize_object m)))).
    rewrite (get_serialized "timestamp" m Hnd), Et. reflexivity. }
  exists (Object.set "timestamp" (DateV (TimeValue t))
            (Object.own_properties (serialize_object m))).
  split.
  { unfold revive. rewrite Hts'. simpl. rewrite Hrev. reflexivity. }
  intros k. destruct (String.eqb "timestamp" k) eqn:E.
  - apply String.eqb_eq in E. subst k. rewrite get_set_eq, Et. reflexivity.
  - apply String.eqb_neq in E. rewrite (get_set_ne _ _ _ _ E).
    rewrite (get_serialized k m Hnd).
    assert (is_date (Object.get k m) = false) as Hk.
    { apply get_not_date; [exact Hdates | congruence]. }
    destruct (Object.get k m) as [|d|j]; simpl in *;
      [reflexivity | discriminate | reflexivity].
Qed.

Lemma revive_all (msgs : list Message) :
  Forall (fun m => storable m = true) msgs ->
  Forall timestamp_revives msgs ->
  exists msgs', mapM revive (map serialize_object msgs) = Ok msgs'
                /\ Forall2 same_message msgs msgs'.
Proof.
  induction msgs as [|m msgs IH]; intros Hst Hrev.
  - exists []. split; [reflexivity | constructor].
  - inversion Hst as [|? ? Hm Hms]; inversion Hrev as [|? ? Rm Rms]; subst.
    destruct (revive_serialized m Hm Rm) as (m' & Em & Sm).
    destruct (IH Hms Rms) as (msgs' & Ems & Sms).
    exists (m' :: msgs'). split; [|constructor; assumption].
    change (mapM revive (map serialize_object (m :: msgs)))
      with (y ← revive (serialize_object m);
            ys ← mapM revive (map serialize_object msgs);
            mret (M := Result) (y :: ys)).
    rewrite Em. simpl. rewrite Ems. reflexivity.
Qed.




Lemma mount_messages ls :
  messages (mount ls) = loadMessagesFromStorage (Some ls).
Proof. unfold mount. rewrite after_render_messages. reflexivity. Qed.

(** Saving a sequence of storable messages and loading it back gives a
    sequence of the same length whose messages agree with the original
    ones on every property read, whatever the builtins are, provided that
    on the texts at hand the write fits the quota, [JSON.parse] rejects
    the empty text and reads the emitted text back, and the [Date]
    constructor reads the ISO strings of the timestamps back. *)
Lemma save_then_load (ls : Storage) (msgs : list Message) :
  Forall (fun m => storable m = true) msgs ->
  Forall timestamp_revives msgs ->
  JSON_parse "" = None ->
  JSON_parse (JSON_stringify msgs) = Some (JArr (map serialize_object msgs)) ->
  (LocalStorage.usage (<[STORAGE_KEY := JSON_stringify msgs]> (items ls))
   <= quota ls)%N ->
  Forall2 same_message msgs
    (loadMessagesFromStorage (saveMessagesToStorage msgs (Some ls))).
Proof.
  intros Hst Hrev Hempty Hcodec Hquota.
  destruct (revive_all msgs Hst Hrev) as (msgs' & Hmap & Hsame).
  unfold saveMessagesToStorage, LocalStorage.setItem.
  apply N.leb_le in Hquota. rewrite Hquota. simpl.
  unfold loadMessagesFromStorage, LocalStorage.getItem. simpl.
  rewrite lookup_insert_eq.
  destruct (JSON_stringify msgs) as [|c text] eqn:Etext; [congruence|].
  simpl. rewrite Hcodec. simpl. rewrite Hmap. exact Hsame.
Qed.

(* ===================================================================== *)
(** *** Further properties of the component                                *)
(* ===================================================================== *)

(** The message the settled part of [sendMessage] appends. *)
Lemma settled_message outcome e w :
  (request_failed outcome
   /\ messages (sendMessage_settle outcome e w) = messages w ++ [errorMsg e])
  \/ (~ request_failed outcome
      /\ exists answer source,
           messages (sendMessage_settle outcome e w)
           = messages w ++ [botMsg e answer source]).
Proof.
  destruct outcome as [|r].
  - left. split; [exact I|]. apply sendMessage_settle_failure. exact I.
  - destruct (ok r) eqn:Hok.
    2:{ left. assert (request_failed (Resolved r)) as H by (left; exact Hok).
        split; [exact H | apply sendMessage_settle_failure, H]. }
    destruct (JSON_parse (body r)) as [data|] eqn:Hparse.
    2:{ left. assert (request_failed (Resolved r)) as H
          by (right; left; exact Hparse).
        split; [exact H | apply sendMessage_settle_failure, H]. }
    destruct (Object.property data "answer") as [answer|x] eqn:Ha.
    + destruct (Object.property data "source") as [source|x] eqn:Hs.
      * right. split.
        -- intros [H|[H|H]]; try congruence.
           rewrite Hparse in H. injection H as ->. discriminate.
        -- exists answer, source.
           apply (sendMessage_settle_success r data); assumption.
      * destruct data; discriminate.
    + left.
      assert (data = JNull) as ->
        by (destruct data; try discriminate; reflexivity).
      assert (request_failed (Resolved r)) as H by (right; right; exact Hparse).
      split; [exact H | apply sendMessage_settle_failure, H].
Qed.

(** X1.  Whatever the outcome of the request, the settled part of
    [sendMessage] appends exactly one message with role "bot", built from
    the readings at hand, ends the loading state and leaves the input
    field alone. *)
Theorem settle_appends_one_bot_message (outcome : FetchOutcome) (e : Entropy)
    (w : World) :
  exists m,
    messages (sendMessage_settle outcome e w) = messages w ++ [m]
    /\ Object.get "role" m = Json (JStr "bot")
    /\ Object.get "id" m = Json (JStr (generateId e))
    /\ Object.get "timestamp" m = DateV (TimeValue (now e))
    /\ isLoading (sendMessage_settle outcome e w) = false
    /\ input (sendMessage_settle outcome e w) = input w.
Proof.
  assert (isLoading (sendMessage_settle outcome e w) = false
          /\ input (sendMessage_settle outcome e w) = input w) as [Hl Hi].
  { unfold sendMessage_settle.
    rewrite after_render_isLoading, after_render_input.
    split; [reflexivity|]. simpl.
    destruct (sendMessage_try outcome e w) as [w'|x] eqn:E; [|reflexivity].
    unfold sendMessage_try in E.
    destruct outcome as [|r]; simpl in E; [discriminate|].
    destruct (ok r); simpl in E; [|discriminate].
    destruct (json r) as [data|]; simpl in E; [|discriminate].
    destruct (Object.property data "answer"); simpl in E; [|discriminate].
    destruct (Object.property data "source"); simpl in E; [|discriminate].
    injection E as <-. reflexivity. }
  destruct (settled_message outcome e w) as [[_ H]|[_ (a & s & H)]];
    eexists; (split; [exact H|]); repeat split; assumption.
Qed.

(** X2.  The apology is what gets appended exactly when the request failed:
    the promise rejected, the status was not 2xx, the body was not JSON
    text, or the body was [null]. *)
Theorem apology_iff_request_failed (outcome : FetchOutcome) (e : Entropy)
    (w : World) :
  messages (sendMessage_settle outcome e w) = messages w ++ [errorMsg e]
  <-> request_failed outcome.
Proof.
  destruct (settled_message outcome e w) as [[Hf H]|[Hnf (a & s & H)]].
  - split; [intros _; exact Hf | intros _; exact H].
  - split; [|contradiction].
    rewrite H. intros Heq. apply app_inv_head in Heq. discriminate.
Qed.

(** X3.  The submit control is disabled exactly when [sendMessage] would do
    nothing with the text of the input field. *)
Theorem submit_disabled_iff_noop (e : Entropy) (w : World) :
  submit_disabled (render w) = true <-> sendMessage (input w) e w = w.
Proof.
  unfold render, sendMessage. simpl.
  rewrite (orb_comm (isLoading w)).
  destruct (negb (JsString.truthy (JsString.trim (input w))) || isLoading w)
    eqn:G.
  - split; reflexivity.
  - split; [discriminate|]. intros H.
    apply orb_false_iff in G as [_ Hidle].
    apply (f_equal isLoading) in H. rewrite after_render_isLoading in H.
    simpl in H. congruence.
Qed.

(** X4.  A shown suggestion, once clicked, is always sent: its text becomes a
    user message, the loading state starts and one request is issued. *)
Theorem shown_suggestion_is_sent (i : nat) (b : Button) (e : Entropy)
    (w : World) :
  suggestion_buttons (render w) !! i = Some b ->
  messages (step (SuggestionClicked i e) w)
  = messages w ++ [userMsg e (label b)]
  /\ isLoading (step (SuggestionClicked i e) w) = true
  /\ inflight (step (SuggestionClicked i e) w)
     = inflight w ++ [request (label b)].
Proof.
  intros Hb. unfold step. rewrite Hb.
  rewrite (suggestion_button_handler w i b Hb). simpl run_handler.
  assert (isLoading w = false /\ JsString.trim (label b) <> "")
    as [Hidle Htrim].
  { revert Hb. unfold render. simpl.
    destruct (messages w); simpl; [|destruct i; discriminate].
    destruct (isLoading w); simpl; [destruct i; discriminate|].
    destruct i as [|[|[|i]]]; simpl; intros [= <-]; split;
      try reflexivity; discriminate. }
  destruct (sendMessage_accepted (label b) e w Htrim Hidle)
    as (Hm & Hl & _ & Hq).
  repeat split; assumption.
Qed.

Lemma trimStart_fixed s :
  JsString.trimStart (JsString.trimStart s) = JsString.trimStart s.
Proof.
  induction s as [|c r IH]; simpl; [reflexivity|].
  destruct (JsString.is_white_space c) eqn:E; [exact IH|].
  simpl. rewrite E. reflexivity.
Qed.

Lemma trimEnd_fixed s :
  JsString.trimEnd (JsString.trimEnd s) = JsString.trimEnd s.
Proof.
  induction s as [|c r IH]; simpl; [reflexivity|].
  destruct (JsString.is_white_space c && JsString.is_empty (JsString.trimEnd r))
    eqn:E; [reflexivity|].
  simpl. rewrite IH, E. reflexivity.
Qed.

(** Trimming the end keeps the start free of white space. *)
Lemma trimStart_trimEnd s :
  JsString.trimStart s = s ->
  JsString.trimStart (JsString.trimEnd s) = JsString.trimEnd s.
Proof.
  destruct s as [|c r]; [reflexivity|]. simpl.
  destruct (JsString.is_white_space c) eqn:E.
  - intros H. exfalso.
    assert (String.length (JsString.trimStart r) <= String.length r)%nat
      as Hlen.
    { clear. induction r as [|x r IH]; simpl; [lia|].
      destruct (JsString.is_white_space x); simpl; lia. }
    rewrite H in Hlen. simpl in Hlen. lia.
  - intros _. simpl. rewrite E. reflexivity.
Qed.

Lemma trim_fixed s : JsString.trim (JsString.trim s) = JsString.trim s.
Proof.
  unfold JsString.trim.
  rewrite (trimStart_trimEnd _ (trimStart_fixed s)). apply trimEnd_fixed.
Qed.

(** X5.  No blank user message is ever appended: when [sendMessage] changes
    the state, the message it appends holds a text that is not empty and
    has no white space at either end. *)
Theorem user_message_is_trimmed (text : string) (e : Entropy) (w : World) :
  sendMessage text e w <> w ->
  messages (sendMessage text e w) = messages w ++ [userMsg e text]
  /\ exists t, Object.get "content" (userMsg e text) = Json (JStr t)
               /\ t <> "" /\ JsString.trim t = t.
Proof.
  intros Hchanged.
  destruct (JsString.trim text) as [|c t] eqn:Htrim.
  { exfalso. apply Hchanged. unfold sendMessage. rewrite Htrim. reflexivity. }
  destruct (isLoading w) eqn:Hl.
  { exfalso. apply Hchanged. unfold sendMessage. rewrite Hl.
    apply orb_true_r || (rewrite orb_true_r; reflexivity). }
  assert (JsString.trim text <> "") as Hne by (rewrite Htrim; discriminate).
  destruct (sendMessage_accepted text e w Hne Hl) as (Hm & _).
  split; [exact Hm|]. exists (JsString.trim text).
  split; [reflexivity|]. split; [exact Hne | apply trim_fixed].
Qed.

(** X6.  Submitting twice in a row is submitting once: after a submit either
    nothing was sent and nothing will be, or a request is pending and
    the second submit is refused. *)
Theorem double_submit_is_single (e e' : Entropy) (w : World) :
  step (Submitted e') (step (Submitted e) w) = step (Submitted e) w.
Proof.
  destruct (input_disabled (render w)) eqn:Hd.
  - assert (forall x, step (Submitted x) w = w) as Hs
      by (intros x; unfold step; rewrite Hd; reflexivity).
    rewrite (Hs e). apply Hs.
  - destruct (negb (JsString.truthy (JsString.trim (input w))) || isLoading w)
      eqn:G.
    + assert (forall x, step (Submitted x) w = w) as Hs
        by (intros x; unfold step, sendMessage; rewrite Hd, G; reflexivity).
      rewrite (Hs e). apply Hs.
    + set (w' := step (Submitted e) w).
      assert (isLoading w' = true) as Hbusy.
      { subst w'. unfold step, sendMessage. rewrite Hd, G.
        rewrite after_render_isLoading. reflexivity. }
      unfold step. change (input_disabled (render w')) with (isLoading w').
      rewrite Hbusy. reflexivity.
Qed.

(** *** The storage under the events *)

(** What the effect leaves in the storage, by cases of the write. *)
Lemma persist_storage w :
  localStorage (persist w)
  = if isHydrated w && (0 <? length (messages w))%nat
    then try_catch
           (LocalStorage.setItem STORAGE_KEY (JSON_stringify (messages w))
                                 (localStorage w))
           (localStorage w)
    else localStorage w.
Proof.
  unfold persist.
  destruct (isHydrated w && (0 <? length (messages w))%nat); reflexivity.
Qed.

Lemma after_render_storage w :
  localStorage (after_render w)
  = if commits (messages w) && isHydrated w && (0 <? length (messages w))%nat
    then try_catch
           (LocalStorage.setItem STORAGE_KEY (JSON_stringify (messages w))
                                 (localStorage w))
           (localStorage w)
    else localStorage w.
Proof.
  unfold after_render. destruct (commits (messages w)); [|reflexivity].
  apply persist_storage.
Qed.

(** X7.  A write refused by the quota is swallowed: the message is kept in
    memory, the request goes out, and the storage stays as it was. *)
Theorem quota_failure_is_swallowed (text : string) (e : Entropy) (w : World) :
  JsString.trim text <> "" -> isLoading w = false ->
  (quota (localStorage w)
   < LocalStorage.usage
       (<[STORAGE_KEY := JSON_stringify (messages w ++ [userMsg e text])]>
          (items (localStorage w))))%N ->
  localStorage (sendMessage text e w) = localStorage w
  /\ messages (sendMessage text e w) = messages w ++ [userMsg e text]
  /\ inflight (sendMessage text e w) = inflight w ++ [request text].
Proof.
  intros Htext Hidle Hquota.
  destruct (sendMessage_accepted text e w Htext Hidle) as (Hm & _ & _ & Hq).
  split; [|split; assumption].
  unfold sendMessage.
  assert (JsString.truthy (JsString.trim text) = true) as ->.
  { destruct (JsString.truthy (JsString.trim text)) eqn:E; [reflexivity|].
    apply trim_falsy_iff in E. contradiction. }
  rewrite Hidle. cbn [negb orb]. rewrite after_render_storage.
  destruct (_ && _ && _); [|reflexivity].
  unfold LocalStorage.setItem.
  apply N.leb_gt in Hquota.
  change (messages (with_inflight _ _)) with (messages w ++ [userMsg e text]).
  change (localStorage (with_inflight _ _)) with (localStorage w).
  rewrite Hquota. reflexivity.
Qed.

Lemma commits_Forall (ms : list Message) :
  commits ms = true <-> Forall displayed ms.
Proof.
  unfold commits, displayed. rewrite forallb_forall, List.Forall_forall.
  split; intros H m Hin; specialize (H m Hin).
  - destruct (MessageBubble m) as [b|x]; [eauto | discriminate].
  - destruct H as (b & -> & H). exact H.
Qed.

Lemma commits_Exists (ms : list Message) :
  commits ms = false <-> Exists render_throws ms.
Proof.
  unfold commits, render_throws. induction ms as [|m ms IH]; simpl.
  - split; [discriminate | intros H; inversion H].
  - destruct (MessageBubble m) as [b|x] eqn:E; simpl.
    + destruct (MarkdownMessage_renders (bubble_content b)) eqn:Eb; simpl.
      * rewrite IH. split; [intros H; right; exact H|].
        intros H. inversion H as [? ? Hm|]; subst; [|assumption].
        rewrite E in Hm. congruence.
      * split; [intros _; left; rewrite E; exact Eb | reflexivity].
    + split; [intros _; left; rewrite E; exact I | reflexivity].
Qed.

(** An event that changes the session to a sequence that is not empty
    ends with the render of a state that differs from the old one in the
    messages (and the flags) only. *)
Lemma step_renders (ev : Event) (w : World) :
  messages (step ev w) <> messages w ->
  messages (step ev w) <> [] ->
  exists w0, localStorage (step ev w) = localStorage (after_render w0)
             /\ messages w0 = messages (step ev w)
             /\ isHydrated w0 = isHydrated w
             /\ localStorage w0 = localStorage w.
Proof.
  assert (forall text e,
    messages (sendMessage text e w) <> messages w ->
    exists w0,
      localStorage (sendMessage text e w) = localStorage (after_render w0)
      /\ messages w0 = messages (sendMessage text e w)
      /\ isHydrated w0 = isHydrated w
      /\ localStorage w0 = localStorage w) as Hsend.
  { intros text e. unfold sendMessage.
    destruct (negb (JsString.truthy (JsString.trim text)) || isLoading w);
      [intros H; exfalso; apply H; reflexivity|].
    intros _. eexists. split; [reflexivity|].
    rewrite after_render_messages. repeat split. }
  destruct ev as [text|e|i e| |outcome e]; unfold step.
  - destruct (input_disabled (render w)); intros H; exfalso; apply H;
      reflexivity.
  - destruct (input_disabled (render w)); [|intros H _; apply Hsend, H].
    intros H; exfalso; apply H; reflexivity.
  - destruct (suggestion_buttons (render w) !! i) as [b|] eqn:Hb;
      [|intros H; exfalso; apply H; reflexivity].
    rewrite (suggestion_button_handler w i b Hb).
    intros H _. apply Hsend, H.
  - destruct (clear_button (render w)) as [b|] eqn:Hb;
      [|intros H; exfalso; apply H; reflexivity].
    rewrite (clear_button_handler w b Hb). simpl.
    unfold clearHistory. rewrite after_render_messages.
    intros _ H. exfalso. apply H. reflexivity.
  - destruct (inflight w) as [|rq rest];
      [intros H; exfalso; apply H; reflexivity|].
    intros _ _.
    change (messages (with_inflight rest (sendMessage_settle outcome e w)))
      with (messages (sendMessage_settle outcome e w)).
    change (localStorage (with_inflight rest (sendMessage_settle outcome e w)))
      with (localStorage (sendMessage_settle outcome e w)).
    unfold sendMessage_settle. rewrite after_render_messages.
    eexists. split; [reflexivity|]. split; [reflexivity|].
    cbn [isHydrated localStorage with_isLoading].
    destruct (sendMessage_try outcome e w) as [w1|x] eqn:E;
      [|split; reflexivity].
    unfold sendMessage_try in E.
    destruct outcome as [|r]; simpl in E; [discriminate|].
    destruct (ok r); simpl in E; [|discriminate].
    destruct (json r) as [data|]; simpl in E; [|discriminate].
    destruct (Object.property data "answer"); simpl in E; [|discriminate].
    destruct (Object.property data "source"); simpl in E; [|discriminate].
    injection E as <-. split; reflexivity.
Qed.

(** X8.  After any event that changes the session to a sequence that is not
    empty, in a hydrated component whose write fits the quota: when every
    message is displayed, the entry of the storage is the serialized
    session; when the render of some message throws, as the bubble of a
    reply whose source is an object does, the render is not committed and
    the storage is left as it was. *)
Theorem storage_mirrors_session (ev : Event) (w : World) :
  isHydrated w = true ->
  messages (step ev w) <> messages w ->
  messages (step ev w) <> [] ->
  (LocalStorage.usage
     (<[STORAGE_KEY := JSON_stringify (messages (step ev w))]>
        (items (localStorage w)))
   <= quota (localStorage w))%N ->
  (Forall displayed (messages (step ev w)) ->
   LocalStorage.getItem STORAGE_KEY (localStorage (step ev w))
   = Some (JSON_stringify (messages (step ev w))))
  /\ (Exists render_throws (messages (step ev w)) ->
      localStorage (step ev w) = localStorage w).
Proof.
  intros Hh Hchanged Hne Hq.
  destruct (step_renders ev w Hchanged Hne) as (w0 & -> & Hm & Hh0 & Hls).
  rewrite after_render_storage, Hm, Hh0, Hls, Hh.
  split.
  - intros Hshown.
    assert (commits (messages (step ev w)) = true) as ->.
    { apply commits_Forall. exact Hshown. }
    destruct (messages (step ev w)) as [|m ms]; [contradiction|].
    cbn [andb length Nat.ltb Nat.leb].
    unfold LocalStorage.setItem. apply N.leb_le in Hq. rewrite Hq.
    unfold LocalStorage.getItem. simpl. apply lookup_insert_eq.
  - intros Hthrows. apply commits_Exists in Hthrows. rewrite Hthrows.
    reflexivity.
Qed.

(** X9.  No event touches an entry of the storage other than the one of the
    chat history, nor the quota. *)
Theorem other_entries_untouched (ev : Event) (w : World) (k : string) :
  k <> STORAGE_KEY ->
  LocalStorage.getItem k (localStorage (step ev w))
  = LocalStorage.getItem k (localStorage w)
  /\ quota (localStorage (step ev w)) = quota (localStorage w).
Proof.
  intros Hk.
  assert (forall w0,
    LocalStorage.getItem k (localStorage (after_render w0))
    = LocalStorage.getItem k (localStorage w0)
    /\ quota (localStorage (after_render w0)) = quota (localStorage w0)) as Hp.
  { intros w0. rewrite after_render_storage.
    destruct (_ && _ && _); [|split; reflexivity].
    unfold LocalStorage.setItem.
    destruct (_ <=? _)%N; simpl; [|split; reflexivity].
    split; [|reflexivity].
    unfold LocalStorage.getItem. simpl.
    apply lookup_insert_ne. congruence. }
  assert (forall text e,
    LocalStorage.getItem k (localStorage (sendMessage text e w))
    = LocalStorage.getItem k (localStorage w)
    /\ quota (localStorage (sendMessage text e w)) = quota (localStorage w))
    as Hsend.
  { intros text e. unfold sendMessage.
    destruct (negb (JsString.truthy (JsString.trim text)) || isLoading w);
      [split; reflexivity|].
    match goal with |- context [after_render ?x] => exact (Hp x) end. }
  destruct ev as [text|e|i e| |outcome e]; unfold step.
  - destruct (input_disabled (render w)); split; reflexivity.
  - destruct (input_disabled (render w)); [split; reflexivity | apply Hsend].
  - destruct (suggestion_buttons (render w) !! i) as [b|] eqn:Hb;
      [|split; reflexivity].
    rewrite (suggestion_button_handler w i b Hb). apply Hsend.
  - destruct (clear_button (render w)) as [b|] eqn:Hb; [|split; reflexivity].
    rewrite (clear_button_handler w b Hb). simpl.
    unfold clearHistory.
    match goal with
    | |- context [after_render ?x] => destruct (Hp x) as [-> ->]
    end.
    simpl. split; [|reflexivity].
    unfold LocalStorage.getItem. simpl. apply lookup_delete_ne. congruence.
  - destruct (inflight w) as [|rq rest]; [split; reflexivity|].
    change (localStorage (with_inflight rest (sendMessage_settle outcome e w)))
      with (localStorage (sendMessage_settle outcome e w)).
    unfold sendMessage_settle.
    match goal with
    | |- context [after_render ?x] => destruct (Hp x) as [-> ->]
    end.
    simpl.
    destruct (sendMessage_try outcome e w) as [w1|x] eqn:E;
      [|split; reflexivity].
    unfold sendMessage_try in E.
    destruct outcome as [|r]; simpl in E; [discriminate|].
    destruct (ok r); simpl in E; [|discriminate].
    destruct (json r) as [data|]; simpl in E; [|discriminate].
    destruct (Object.property data "answer"); simpl in E; [|discriminate].
    destruct (Object.property data "source"); simpl in E; [|discriminate].
    injection E as <-. split; reflexivity.
Qed.

(** *** Loading a stored array *)

Lemma mapM_revive_cons x l :
  mapM revive (x :: l)
  = (y ← revive x; ys ← mapM revive l; mret (M := Result) (y :: ys)).
Proof. reflexivity. Qed.

Lemma revive_null : revive JNull = Throw TypeError.
Proof. reflexivity. Qed.

(** [String(j)] goes through exactly when [j] prints, and the error is a
    TypeError otherwise. *)
Lemma js_toString_prints : forall j,
  match js_toString j with
  | Ok _ => prints j = true
  | Throw x => prints j = false /\ x = TypeError
  end.
Proof.
  fix IH 1. intros [|[|]|n|s|elements|members]; try reflexivity.
  - cbn [js_toString prints].
    induction elements as [|x l IHl]; [reflexivity|].
    cbn [forallb].
    change (mapM ?f (x :: l))
      with (y ← f x; ys ← mapM f l; mret (M := Result) (y :: ys)).
    assert (match (match x with JNull => Ok "" | _ => js_toString x end) with
            | Ok _ => prints x = true
            | Throw e => prints x = false /\ e = TypeError
            end) as Hx.
    { specialize (IH x). destruct x; exact IH. }
    destruct (match x with JNull => Ok "" | _ => js_toString x end)
      as [y|e].
    + rewrite Hx. cbn [andb mbind Result_bind].
      destruct (mapM _ l) as [ys|e];
        cbn [mbind Result_bind mret Result_ret] in *; exact IHl.
    + destruct Hx as [-> ->]. split; reflexivity.
  - cbn [js_toString prints]. destruct (hides_toString members);
      [split; reflexivity | reflexivity].
Qed.

Lemma new_Date_from_JSON (j : JSON) :
  match new_Date (Json j) with
  | Ok _ => prints j = true
  | Throw x => prints j = false /\ x = TypeError
  end.
Proof.
  pose proof (js_toString_prints j) as H.
  destruct j as [|b|n|s|elements|members]; try reflexivity;
    unfold new_Date; destruct (js_toString _); exact H.
Qed.

(** The callback on one element: a message for a revivable element, a
    TypeError for any other. *)
Lemma revive_revivable x :
  match revive x with
  | Ok m => revivable x = true /\ revived x m
  | Throw e => revivable x = false /\ e = TypeError
  end.
Proof.
  destruct x as [|b|n|s|elements|members] eqn:Ex;
    [split; reflexivity| | | | |].
  all: rewrite <- Ex.
  all: assert (Object.property x "timestamp"
               = Ok (Object.get "timestamp" (Object.own_properties x)))
         as Hp by (subst x; reflexivity).
  all: assert (revivable x
               = match Object.get "timestamp" (Object.own_properties x) with
                 | Json j => prints j
                 | _ => true
                 end) as Hr by (subst x; reflexivity).
  all: unfold revive, revived; rewrite Hp, Hr; cbn [mbind Result_bind].
  all: destruct (Object.get "timestamp" (Object.own_properties x))
         as [|d|j] eqn:Et.
  all: try (split; [reflexivity|]; split;
            [intros k Hk; apply get_set_ne; congruence
            | first [apply get_set_eq | eexists; apply get_set_eq]]).
  all: pose proof (new_Date_from_JSON j) as Hd.
  all: destruct (new_Date (Json j)) as [date|e] eqn:Ed;
         cbn [mbind Result_bind mret Result_ret]; [|exact Hd].
  all: split; [exact Hd|]; split;
         [intros k Hk; apply get_set_ne; congruence|].
  all: rewrite get_set_eq.
  all: destruct j; cbn [new_Date] in Ed; try (injection Ed as <-; reflexivity);
         eexists; reflexivity.
Qed.

Lemma mapM_revive_throws l :
  Exists (fun x => revivable x = false) l -> mapM revive l = Throw TypeError.
Proof.
  induction l as [|x l IH]; intros Hbad; [inversion Hbad|].
  rewrite mapM_revive_cons.
  pose proof (revive_revivable x) as Hx.
  destruct (revive x) as [m|e]; [|destruct Hx as [_ ->]; reflexivity].
  cbn [mbind Result_bind].
  rewrite IH; [reflexivity|].
  inversion Hbad as [? ? Hhead|? ? Htail]; subst; [|exact Htail].
  destruct Hx as [Hx _]. congruence.
Qed.

Lemma mapM_revive_all l :
  Forall (fun x => revivable x = true) l ->
  exists ms, mapM revive l = Ok ms /\ Forall2 revived l ms.
Proof.
  induction 1 as [|x l Hx _ (ms & Hms & Hall)].
  - exists []. split; [reflexivity | constructor].
  - pose proof (revive_revivable x) as Hr.
    destruct (revive x) as [m|e] eqn:Em; [|destruct Hr; congruence].
    exists (m :: ms). rewrite mapM_revive_cons, Em. cbn [mbind Result_bind].
    rewrite Hms. split; [reflexivity|].
    constructor; [apply Hr | exact Hall].
Qed.

(** The load of a stored array is the [map] of the callback. *)
Lemma load_array (ls : Storage) (stored : string) (elements : list JSON) :
  LocalStorage.getItem STORAGE_KEY ls = Some stored ->
  stored <> "" ->
  JSON_parse stored = Some (JArr elements) ->
  loadMessagesFromStorage (Some ls) = try_catch (mapM revive elements) [].
Proof.
  intros Hget Hne Hparse.
  unfold loadMessagesFromStorage. rewrite Hget.
  destruct stored as [|c stored]; [contradiction|]. simpl.
  rewrite Hparse. reflexivity.
Qed.

(** X10.  A stored array is loaded all or nothing.  One element that the
    callback cannot revive discards the whole history: a [null], on which
    the property read throws, or an element whose timestamp is an object
    hiding [toString], on which the [Date] constructor throws.  When every
    element is revivable, whatever its shape, each becomes a message. *)
Theorem load_stored_array (ls : Storage) (stored : string)
    (elements : list JSON) :
  LocalStorage.getItem STORAGE_KEY ls = Some stored ->
  stored <> "" ->
  JSON_parse stored = Some (JArr elements) ->
  (Exists (fun x => revivable x = false) elements ->
   loadMessagesFromStorage (Some ls) = [])
  /\ (Forall (fun x => revivable x = true) elements ->
      length (loadMessagesFromStorage (Some ls)) = length elements)
  /\ (In JNull elements -> loadMessagesFromStorage (Some ls) = [])
  /\ (forall x members,
        In x elements ->
        Object.property x "timestamp" = Ok (Json (JObj members)) ->
        In "toString" (map fst members) ->
        loadMessagesFromStorage (Some ls) = []).
Proof.
  intros Hget Hne Hparse.
  rewrite (load_array ls stored elements Hget Hne Hparse).
  assert (Exists (fun x => revivable x = false) elements ->
          try_catch (mapM revive elements) [] = []) as Hbad.
  { intros H. rewrite (mapM_revive_throws _ H). reflexivity. }
  split; [exact Hbad|]. split; [|split].
  - intros Hall. destruct (mapM_revive_all _ Hall) as (ms & -> & H2).
    symmetry. apply (Forall2_length _ _ _ H2).
  - intros Hin. apply Hbad, List.Exists_exists.
    exists JNull. split; [exact Hin | reflexivity].
  - intros x members Hin Hts Hhidden. apply Hbad, List.Exists_exists.
    exists x. split; [exact Hin|].
    assert (hides_toString members = true) as Hh.
    { unfold hides_toString. apply existsb_exists.
      exists "toString". split; [exact Hhidden | apply String.eqb_refl]. }
    destruct x as [|b|n|s|l|ms]; [reflexivity| | | | |];
      unfold Object.property in Hts; injection Hts as Hts;
      first [ simpl in Hts; discriminate Hts
            | unfold revivable, Object.own_properties; rewrite Hts;
              cbn [prints]; rewrite Hh; reflexivity ].
Qed.

(** X11.  What the load makes of a stored array of revivable elements:
    message by message, the own properties of the stored element, and
    under "timestamp" a [Date] that is invalid when the element has no
    timestamp, the epoch for [null], 0 or 1 ms for a boolean, the time
    value for a number within the range of dates, the parse of a string. *)
Theorem load_revives_each_element (ls : Storage) (stored : string)
    (elements : list JSON) :
  LocalStorage.getItem STORAGE_KEY ls = Some stored ->
  stored <> "" ->
  JSON_parse stored = Some (JArr elements) ->
  Forall (fun x => revivable x = true) elements ->
  Forall2 revived elements (loadMessagesFromStorage (Some ls)).
Proof.
  intros Hget Hne Hparse Hall.
  rewrite (load_array ls stored elements Hget Hne Hparse).
  destruct (mapM_revive_all _ Hall) as (ms & -> & H2). exact H2.
Qed.

(** X12.  A mount that loads nothing writes nothing: an unreadable entry stays
    in the storage until the first message is appended. *)
Theorem mount_keeps_unreadable_entry (ls : Storage) :
  loadMessagesFromStorage (Some ls) = [] ->
  localStorage (mount ls) = ls
  /\ messages (mount ls) = []
  /\ isHydrated (mount ls) = true
  /\ suggestion_buttons (render (mount ls)) <> [].
Proof.
  intros Hload. unfold mount. cbv zeta.
  change (localStorage (initial ls)) with ls. rewrite Hload.
  rewrite after_render_empty by reflexivity. simpl.
  repeat split. discriminate.
Qed.

(** X13.  Clearing the history while a request is pending does not cancel it:
    once it settles, the reply is the only message of the session. *)
Theorem clear_then_settle_keeps_reply (w : World) (rq : Request)
    (rest : list Request) (outcome : FetchOutcome) (e : Entropy) :
  messages w <> [] ->
  inflight w = rq :: rest ->
  exists m,
    messages (run [ClearClicked; Settled outcome e] w) = [m]
    /\ Object.get "role" m = Json (JStr "bot")
    /\ LocalStorage.getItem STORAGE_KEY
         (localStorage (step ClearClicked w)) = None.
Proof.
  intros Hne Hq.
  change (run [ClearClicked; Settled outcome e] w)
    with (step (Settled outcome e) (step ClearClicked w)).
  assert (step ClearClicked w = clearHistory w) as ->.
  { unfold step, render. simpl.
    destruct (messages w); [contradiction|]. reflexivity. }
  assert (messages (clearHistory w) = []) as Hm.
  { unfold clearHistory. rewrite after_render_messages. reflexivity. }
  assert (inflight (clearHistory w) = rq :: rest) as Hi.
  { unfold clearHistory. rewrite after_render_inflight. exact Hq. }
  unfold step. rewrite Hi.
  change (messages (with_inflight rest
            (sendMessage_settle outcome e (clearHistory w))))
    with (messages (sendMessage_settle outcome e (clearHistory w))).
  assert (exists m,
    messages (sendMessage_settle outcome e (clearHistory w))
    = messages (clearHistory w) ++ [m]
    /\ Object.get "role" m = Json (JStr "bot")) as (m & Hmsg & Hrole).
  { destruct (settled_message outcome e (clearHistory w))
      as [[_ H]|[_ (a & s & H)]]; eexists; (split; [exact H | reflexivity]). }
  exists m. rewrite Hmsg, Hm. split; [reflexivity|]. split; [exact Hrole|].
  unfold clearHistory. rewrite after_render_empty by reflexivity. simpl.
  unfold LocalStorage.getItem. simpl. apply lookup_delete_eq.
Qed.

(** *** The bubbles *)


End ChatUI.

(* ===================================================================== *)
(** ** The reference builtins read back what they print                   *)
(* ===================================================================== *)

Lemma append_assoc (a b c : string) : (a +:+ b) +:+ c = a +:+ (b +:+ c).
Proof.
  induction a as [|x a IH]; [reflexivity|].
  rewrite !append_cons, IH. reflexivity.
Qed.

Lemma digit_value_char d :
  0 <= d <= 9 -> Ref.digit_value (Ref.digit_char d) = Some d.
Proof.
  intros H.
  assert (d = 0 \/ d = 1 \/ d = 2 \/ d = 3 \/ d = 4 \/ d = 5 \/ d = 6
          \/ d = 7 \/ d = 8 \/ d = 9) as Hd by lia.
  repeat (destruct Hd as [->|Hd]; [reflexivity|]). subst. reflexivity.
Qed.

Lemma read_digits_snoc k : forall acc s a c r d,
  Ref.read_digits k acc s = Some (a, String c r) ->
  Ref.digit_value c = Some d ->
  Ref.read_digits (S k) acc s = Some (10 * a + d, r).
Proof.
  induction k as [|k IH]; intros acc s a c r d H Hd.
  - simpl in H. injection H as <- ->. simpl. rewrite Hd. reflexivity.
  - change (Ref.read_digits (S (S k)) acc s)
      with (match s with
            | String c r =>
                match Ref.digit_value c with
                | Some d => Ref.read_digits (S k) (10 * acc + d) r
                | None => None
                end
            | EmptyString => None
            end).
    simpl in H. destruct s as [|c0 s]; [discriminate|].
    destruct (Ref.digit_value c0) as [d0|]; [|discriminate].
    apply (IH _ _ _ _ _ _ H Hd).
Qed.

Lemma read_digits_digits w : forall n acc rest,
  0 <= n < 10 ^ Z.of_nat w ->
  Ref.read_digits w acc (Ref.digits w n +:+ rest)
  = Some (acc * 10 ^ Z.of_nat w + n, rest).
Proof.
  induction w as [|w IH]; intros n acc rest Hn.
  - simpl in *. f_equal. f_equal. lia.
  - rewrite Nat2Z.inj_succ, Z.pow_succ_r in * by lia.
    change (Ref.digits (S w) n)
      with (Ref.digits w (n / 10) +:+ String (Ref.digit_char (n mod 10)) "").
    rewrite append_assoc, append_cons, append_nil_l.
    assert (0 <= n / 10 < 10 ^ Z.of_nat w) as Hq
      by (Z.div_mod_to_equations; lia).
    rewrite (read_digits_snoc w acc _ _ _ _ (n mod 10) (IH _ acc _ Hq)).
    + f_equal. f_equal. Z.div_mod_to_equations. lia.
    + apply digit_value_char. Z.div_mod_to_equations. lia.
Qed.

Lemma is_leap_spec y :
  Ref.is_leap y = true
  <-> (y mod 4 = 0 /\ (y mod 100 <> 0 \/ y mod 400 = 0)).
Proof.
  unfold Ref.is_leap.
  rewrite orb_true_iff, andb_true_iff, negb_true_iff, !Z.eqb_eq, Z.eqb_neq.
  Z.div_mod_to_equations. lia.
Qed.

Lemma is_leap_shift y k : Ref.is_leap (y + k * 400) = Ref.is_leap y.
Proof.
  apply eq_true_iff_eq. rewrite !is_leap_spec.
  Z.div_mod_to_equations. lia.
Qed.

Lemma february_bound y : 28 <= Ref.days_in_month y 2 <= 29.
Proof. unfold Ref.days_in_month. simpl. destruct (Ref.is_leap y); lia. Qed.

(** The calendar date of a day number is a valid date, and has that day
    number. *)
Lemma civil_from_days_spec z :
  let '(y, m, d) := Ref.civil_from_days z in
  1 <= m <= 12 /\ 1 <= d <= Ref.days_in_month y m
  /\ Ref.days_from_civil y m d = z
  /\ (-100000000 <= z <= 100000000 -> -999999 <= y <= 999999).
Proof.
  unfold Ref.civil_from_days.
  set (z' := z + 719468). set (era := z' / 146097). set (doe := z' mod 146097).
  set (yoe := (doe - doe / 1460 + doe / 36524 - doe / 146096) / 365).
  set (doy := doe - (365 * yoe + yoe / 4 - yoe / 100)).
  set (mp := (5 * doy + 2) / 153).
  set (d := doy - (153 * mp + 2) / 5 + 1).
  assert (0 <= doe < 146097) as Hdoe by (apply Z.mod_pos_bound; lia).
  assert (z' = era * 146097 + doe) as Hz
    by (subst era doe; Z.div_mod_to_equations; lia).
  assert (0 <= yoe <= 399 /\ 0 <= doy <= 365
          /\ (doy = 365 -> (yoe + 1) mod 4 = 0
                           /\ ((yoe + 1) mod 100 <> 0 \/ (yoe + 1) mod 400 = 0)))
    as (Hyoe & Hdoy & Hleap).
  { subst yoe doy. clearbody doe. clear -Hdoe. Z.div_mod_to_equations. lia. }
  assert (0 <= mp <= 11 /\ 1 <= d <= 31
          /\ (mp = 11 -> d = doy - 336)
          /\ ((mp = 1 \/ mp = 3 \/ mp = 6 \/ mp = 8) -> d <= 30))
    as (Hmp & Hd & Hfeb & H30).
  { subst mp d. clearbody doy. clear -Hdoy. Z.div_mod_to_equations. lia. }
  assert (d = doy - (153 * mp + 2) / 5 + 1) as Ed by reflexivity.
  assert (doy = doe - (365 * yoe + yoe / 4 - yoe / 100)) as Edoy by reflexivity.
  clearbody d mp doy yoe era doe.
  assert (forall y, y = yoe + 1 -> mp = 11 -> d <= Ref.days_in_month (y + era * 400) 2)
    as Hfebruary.
  { intros y -> Hmp11. unfold Ref.days_in_month. simpl.
    rewrite is_leap_shift.
    destruct (Ref.is_leap (yoe + 1)) eqn:El; [lia|].
    assert (doy <> 365) as Hne.
    { intros H365. apply Hleap in H365. apply is_leap_spec in H365. congruence. }
    lia. }
  destruct (Z.ltb_spec mp 10) as [Hlt|Hge].
  - (* March to December *)
    destruct (Z.leb_spec (mp + 3) 2) as [?|_]; [lia|].
    repeat split; try lia.
    + unfold Ref.days_in_month.
      destruct (Z.eqb_spec (mp + 3) 2); [lia|].
      destruct (Z.eqb_spec (mp + 3) 4), (Z.eqb_spec (mp + 3) 6),
        (Z.eqb_spec (mp + 3) 9), (Z.eqb_spec (mp + 3) 11); simpl; lia.
    + unfold Ref.days_from_civil.
      destruct (Z.leb_spec (mp + 3) 2) as [?|_]; [lia|].
      destruct (Z.ltb_spec 2 (mp + 3)) as [_|?]; [|lia].
      Z.div_mod_to_equations. lia.
  - (* January and February *)
    destruct (Z.leb_spec (mp - 9) 2) as [_|?]; [|lia].
    repeat split; try lia.
    + assert (mp = 10 \/ mp = 11) as [-> | ->] by lia.
      * unfold Ref.days_in_month. simpl. lia.
      * replace (yoe + era * 400 + 1) with (yoe + 1 + era * 400) by lia.
        apply Hfebruary; reflexivity.
    + unfold Ref.days_from_civil.
      destruct (Z.leb_spec (mp - 9) 2) as [_|?]; [|lia].
      destruct (Z.ltb_spec 2 (mp - 9)) as [?|_]; [lia|].
      Z.div_mod_to_equations. lia.
Qed.

Lemma read_digits_digits0 w n rest :
  0 <= n < 10 ^ Z.of_nat w ->
  Ref.read_digits w 0 (Ref.digits w n +:+ rest) = Some (n, rest).
Proof. intros H. rewrite (read_digits_digits w n 0 rest H). reflexivity. Qed.

Lemma strip_prefix_app p s : Ref.strip_prefix p (p +:+ s) = Some s.
Proof.
  induction p as [|c p IH]; [destruct s; reflexivity|].
  rewrite append_cons. simpl. rewrite Ascii.eqb_refl. exact IH.
Qed.

(** A text that starts with four digits is read as a four-digit year. *)
Lemma read_year_digits s x :
  Ref.read_digits 4 0 s = Some x -> Ref.read_year s = Some x.
Proof.
  intros H. destruct s as [|c r]; [discriminate|].
  assert (Ref.digit_value c <> None) as Hc.
  { intros E. simpl in H. rewrite E in H. discriminate. }
  destruct c as [[] [] [] [] [] [] [] []];
    try (exfalso; apply Hc; reflexivity); exact H.
Qed.

Lemma read_year_minus r :
  Ref.read_year (String "-" r)
  = ('(y, r') ← Ref.read_digits 6 0 r; Some (- y, r')).
Proof. reflexivity. Qed.

Lemma read_year_plus r :
  Ref.read_year (String "+" r) = Ref.read_digits 6 0 r.
Proof. reflexivity. Qed.

Lemma read_year_printed y rest :
  -999999 <= y <= 999999 ->
  Ref.read_year
    ((if (0 <=? y) && (y <=? 9999) then Ref.digits 4 y
      else (if y <? 0 then "-" else "+") +:+ Ref.digits 6 (Z.abs y)) +:+ rest)
  = Some (y, rest).
Proof.
  intros Hy.
  destruct (Z.leb_spec 0 y) as [H0|H0]; cbn [andb].
  - destruct (Z.leb_spec y 9999) as [H1|H1].
    + apply read_year_digits, read_digits_digits0. simpl. lia.
    + destruct (Z.ltb_spec y 0) as [?|_]; [lia|].
      rewrite append_assoc, append_cons, append_nil_l, read_year_plus.
      rewrite read_digits_digits0 by (simpl; lia). f_equal. f_equal. lia.
  - destruct (Z.ltb_spec y 0) as [_|?]; [|lia].
    rewrite append_assoc, append_cons, append_nil_l, read_year_minus.
    rewrite read_digits_digits0 by (simpl; lia). cbn [mbind option_bind].
    f_equal. f_equal. lia.
Qed.

Lemma days_in_month_le y m : Ref.days_in_month y m <= 31.
Proof.
  unfold Ref.days_in_month.
  destruct (m =? 2); [destruct (Ref.is_leap y); lia|].
  destruct ((m =? 4) || (m =? 6) || (m =? 9) || (m =? 11)); lia.
Qed.

(** Over the whole range of time values, the reference [Date]
    constructor reads back the ISO string of a time value. *)
Theorem Ref_Date_parse_toISOString t :
  -8640000000000000 <= t <= 8640000000000000 ->
  Ref.Date_parse (Ref.toISOString t) = TimeValue t.
Proof.
  intros Ht. unfold Ref.toISOString.
  pose proof (civil_from_days_spec (t / Ref.ms_per_day)) as Hcivil.
  destruct (Ref.civil_from_days (t / Ref.ms_per_day)) as [[y m] d].
  destruct Hcivil as (Hm & Hd & Hdays & Hy).
  assert (-999999 <= y <= 999999) as Hyear.
  { apply Hy. unfold Ref.ms_per_day. Z.div_mod_to_equations. lia. }
  pose proof (days_in_month_le y m) as Hdim.
  set (r := t mod Ref.ms_per_day).
  assert (0 <= r < 86400000) as Hr
    by (subst r; unfold Ref.ms_per_day; Z.div_mod_to_equations; lia).
  unfold Ref.Date_parse, Ref.read_iso.
  rewrite read_year_printed by exact Hyear. cbn [mbind option_bind].
  rewrite strip_prefix_app. cbn [mbind option_bind].
  rewrite read_digits_digits0 by (simpl; lia). cbn [mbind option_bind].
  rewrite strip_prefix_app. cbn [mbind option_bind].
  rewrite read_digits_digits0 by (simpl; lia). cbn [mbind option_bind].
  rewrite strip_prefix_app. cbn [mbind option_bind].
  rewrite read_digits_digits0 by (simpl; Z.div_mod_to_equations; lia).
  cbn [mbind option_bind].
  rewrite strip_prefix_app. cbn [mbind option_bind].
  rewrite read_digits_digits0 by (simpl; Z.div_mod_to_equations; lia).
  cbn [mbind option_bind].
  rewrite strip_prefix_app. cbn [mbind option_bind].
  rewrite read_digits_digits0 by (simpl; Z.div_mod_to_equations; lia).
  cbn [mbind option_bind].
  rewrite strip_prefix_app. cbn [mbind option_bind].
  rewrite read_digits_digits0 by (simpl; Z.div_mod_to_equations; lia).
  cbn [mbind option_bind].
  rewrite String.eqb_refl.
  rewrite (proj2 (Z.leb_le 1 m)), (proj2 (Z.leb_le m 12)),
    (proj2 (Z.leb_le 1 d)), (proj2 (Z.leb_le d _)) by lia.
  rewrite (proj2 (Z.leb_le (r / 3600000) 23)),
    (proj2 (Z.leb_le (r / 60000 mod 60) 59)),
    (proj2 (Z.leb_le (r / 1000 mod 60) 59))
    by (Z.div_mod_to_equations; lia).
  cbn [andb]. rewrite Hdays.
  replace (t / Ref.ms_per_day * Ref.ms_per_day + r / 3600000 * 3600000
           + r / 60000 mod 60 * 60000 + r / 1000 mod 60 * 1000 + r mod 1000)
    with t
    by (subst r; unfold Ref.ms_per_day in *; Z.div_mod_to_equations; lia).
  unfold time_clip.
  destruct (Z.leb_spec (Z.abs t) 8640000000000000); [reflexivity | lia].
Qed.

(** *** JSON text *)

Lemma read_string_escaped s rest :
  Ref.read_string (Ref.escape s +:+ String Ref.dq rest) = Some (s, rest).
Proof.
  induction s as [|c s IH]; [reflexivity|].
  change (Ref.escape (String c s)) with (Ref.escape_char c +:+ Ref.escape s).
  rewrite append_assoc.
  destruct c as [[] [] [] [] [] [] [] []];
    (cbv [Ref.escape_char Ref.hex_char]; simpl;
     rewrite ?append_cons, ?append_nil_l; simpl; rewrite IH; reflexivity).
Qed.

Lemma terminated_facts rest :
  Ref.terminated rest = true ->
  Ref.skip_ws rest = rest
  /\ Ref.starts_with_digit rest = false
  /\ Ref.continues_number rest = false
  /\ forall n, Ref.read_number n rest = (n, rest).
Proof.
  destruct rest as [|c r]; [intros _; repeat split|].
  destruct c as [[] [] [] [] [] [] [] []]; try discriminate;
    intros _; repeat split.
Qed.

Lemma digit_value_pretty_char d :
  (d < 10)%N -> Ref.digit_value (pretty_N_char d) = Some (Z.of_N d).
Proof.
  intros H.
  assert (d = 0 \/ d = 1 \/ d = 2 \/ d = 3 \/ d = 4 \/ d = 5 \/ d = 6
          \/ d = 7 \/ d = 8 \/ d = 9)%N as Hd by lia.
  repeat (destruct Hd as [->|Hd]; [reflexivity|]). subst. reflexivity.
Qed.

Lemma pretty_N_go_app x : forall s rest,
  pretty_N_go x s +:+ rest = pretty_N_go x (s +:+ rest).
Proof.
  induction x as [x IH] using (well_founded_induction N.lt_wf_0).
  intros s rest. destruct (decide (x = 0)%N) as [->|Hx].
  - rewrite !pretty_N_go_0. reflexivity.
  - rewrite !(pretty_N_go_step x) by lia.
    rewrite IH by (apply N.div_lt; lia). reflexivity.
Qed.

Lemma read_number_pretty x : forall s,
  Ref.read_number 0 (pretty_N_go x s) = Ref.read_number (Z.of_N x) s.
Proof.
  induction x as [x IH] using (well_founded_induction N.lt_wf_0).
  intros s. destruct (decide (x = 0)%N) as [->|Hx].
  - rewrite pretty_N_go_0. reflexivity.
  - rewrite pretty_N_go_step by lia.
    rewrite IH by (apply N.div_lt; lia).
    simpl. rewrite digit_value_pretty_char by (apply N.mod_lt; lia).
    f_equal. rewrite N2Z.inj_div, N2Z.inj_mod. simpl Z.of_N.
    Z.div_mod_to_equations. lia.
Qed.

Lemma pretty_N_go_head x : forall s,
  (0 < x)%N ->
  exists c r d, pretty_N_go x s = String c r
                /\ Ref.digit_value c = Some d /\ 0 < d.
Proof.
  induction x as [x IH] using (well_founded_induction N.lt_wf_0).
  intros s Hx. rewrite pretty_N_go_step by lia.
  destruct (decide (x `div` 10 = 0)%N) as [Hq|Hq].
  - rewrite Hq, pretty_N_go_0. eexists _, _, _. split; [reflexivity|].
    assert (x < 10)%N as Hlt by (apply N.div_small_iff in Hq; lia).
    rewrite digit_value_pretty_char by (apply N.mod_lt; lia).
    split; [reflexivity|]. rewrite N.mod_small by lia. lia.
  - apply IH; [apply N.div_lt; lia | apply N.neq_0_lt_0, Hq].
Qed.

Lemma read_unsigned_pretty (p : positive) rest :
  Ref.terminated rest = true ->
  Ref.read_unsigned (pretty p +:+ rest) = Some (Z.pos p, rest)
  /\ exists c r, pretty p +:+ rest = String c r /\ Ref.digit_value c <> None.
Proof.
  intros Hrest. destruct (terminated_facts rest Hrest) as (_ & _ & Hcont & Hnum).
  unfold pretty, pretty_positive, pretty, pretty_N.
  destruct (decide (N.pos p = 0)%N) as [?|_]; [lia|].
  rewrite pretty_N_go_app, append_nil_l.
  destruct (pretty_N_go_head (N.pos p) rest) as (c & r & d & E & Hc & Hd); [lia|].
  split.
  - pose proof (read_number_pretty (N.pos p) rest) as Hread.
    rewrite E in *. unfold Ref.read_unsigned. rewrite Hc.
    destruct (Z.eqb_spec d 0) as [?|_]; [lia|]. cbn [andb].
    rewrite Hread, Hnum, Hcont. reflexivity.
  - exists c, r. split; [exact E | congruence].
Qed.

Lemma read_int_digit c r :
  Ref.digit_value c <> None ->
  Ref.read_int (String c r) = Ref.read_unsigned (String c r).
Proof.
  intros Hc. destruct c as [[] [] [] [] [] [] [] []];
    try (exfalso; apply Hc; reflexivity); reflexivity.
Qed.

Lemma read_value_digit f c r :
  Ref.digit_value c <> None ->
  Ref.read_value (S f) (String c r)
  = ('(n, r') ← Ref.read_int (String c r); Some (JNum n, r')).
Proof.
  intros Hc. destruct c as [[] [] [] [] [] [] [] []];
    try (exfalso; apply Hc; reflexivity); reflexivity.
Qed.

Lemma read_value_minus f r :
  Ref.read_value (S f) (String "-" r)
  = ('(n, r') ← Ref.read_int (String "-" r); Some (JNum n, r')).
Proof. reflexivity. Qed.

Lemma read_value_number f n rest :
  Ref.terminated rest = true ->
  Ref.read_value (S f) (pretty n +:+ rest) = Some (JNum n, rest).
Proof.
  intros Hrest. destruct (terminated_facts rest Hrest) as (_ & Hdig & Hcont & Hnum).
  destruct n as [|p|p].
  - change (pretty 0%Z +:+ rest) with (String "0" rest).
    rewrite read_value_digit by discriminate.
    rewrite read_int_digit by discriminate.
    unfold Ref.read_unsigned.
    change (Ref.digit_value "0") with (Some 0). rewrite Hdig. cbn [andb Z.eqb].
    change (Ref.read_number 0 (String "0" rest)) with (Ref.read_number 0 rest).
    rewrite Hnum, Hcont. reflexivity.
  - destruct (read_unsigned_pretty p rest Hrest) as (Hread & c & r & E & Hc).
    change (pretty (Z.pos p)) with (pretty p). rewrite E in *.
    rewrite read_value_digit, read_int_digit, Hread by exact Hc. reflexivity.
  - destruct (read_unsigned_pretty p rest Hrest) as (Hread & _).
    change (pretty (Z.neg p)) with ("-" +:+ pretty p).
    rewrite append_assoc, append_cons, append_nil_l, read_value_minus.
    change (Ref.read_int (String "-" ?x))
      with ('(n, rest) ← Ref.read_unsigned x; Some (- n, rest)).
    rewrite Hread. reflexivity.
Qed.

Lemma value_start_digit c :
  Ref.digit_value c <> None -> Ref.value_start c = true.
Proof.
  intros H. unfold Ref.value_start.
  destruct (Ref.digit_value c); [|contradiction].
  rewrite !orb_true_r. reflexivity.
Qed.

Lemma pretty_Z_head (n : Z) rest :
  exists c r, pretty n +:+ rest = String c r /\ Ref.value_start c = true.
Proof.
  destruct n as [|p|p].
  - exists "0"%char, rest. split; reflexivity.
  - change (pretty (Z.pos p)) with (pretty p).
    unfold pretty, pretty_positive, pretty, pretty_N.
    destruct (decide (N.pos p = 0)%N) as [?|_]; [lia|].
    rewrite pretty_N_go_app, append_nil_l.
    destruct (pretty_N_go_head (N.pos p) rest) as (c & r & d & E & Hc & _);
      [lia|].
    exists c, r. split; [exact E|]. apply value_start_digit. congruence.
  - exists "-"%char, (pretty p +:+ rest). split; [|reflexivity].
    change (pretty (Z.neg p)) with ("-" +:+ pretty p).
    rewrite append_assoc. reflexivity.
Qed.

(** The text of a value starts with a character that starts a value. *)
Lemma JSON_text_head j rest :
  exists c r, Ref.JSON_text j +:+ rest = String c r
              /\ Ref.value_start c = true.
Proof.
  destruct j as [|[]|n|s|l|ms]; try apply pretty_Z_head;
    eexists _, _; (split; [reflexivity|reflexivity]).
Qed.

Lemma read_value_array f c r :
  Ref.value_start c = true ->
  Ref.read_value (S f) (String "[" (String c r))
  = ('(l, r') ← Ref.read_elements f [] (String c r); Some (JArr l, r')).
Proof.
  destruct c as [[] [] [] [] [] [] [] []]; try discriminate; reflexivity.
Qed.

Lemma read_value_object f r :
  Ref.read_value (S f) (String "{" (String Ref.dq r))
  = ('(l, r') ← Ref.read_members f [] (String Ref.dq r); Some (JObj l, r')).
Proof. reflexivity. Qed.

Lemma read_value_string f r :
  Ref.read_value (S f) (String Ref.dq r)
  = ('(t, r') ← Ref.read_string r; Some (JStr t, r')).
Proof. reflexivity. Qed.

Lemma read_elements_eq f acc s :
  Ref.read_elements (S f) acc s
  = ('(v, r) ← Ref.read_value f s;
     match Ref.skip_ws r with
     | String c r' =>
         if Ascii.eqb c "," then Ref.read_elements f (acc ++ [v]) r'
         else if Ascii.eqb c "]" then Some (acc ++ [v], r')
         else None
     | EmptyString => None
     end).
Proof. reflexivity. Qed.

Lemma read_elements_more f acc s v r :
  Ref.read_value f s = Some (v, String "," r) ->
  Ref.read_elements (S f) acc s = Ref.read_elements f (acc ++ [v]) r.
Proof. intros H. rewrite read_elements_eq, H. reflexivity. Qed.

Lemma read_elements_last f acc s v r :
  Ref.read_value f s = Some (v, String "]" r) ->
  Ref.read_elements (S f) acc s = Some (acc ++ [v], r).
Proof. intros H. rewrite read_elements_eq, H. reflexivity. Qed.

Lemma read_members_eq f acc r :
  Ref.read_members (S f) acc (String Ref.dq r)
  = ('(k, r1) ← Ref.read_string r;
     match Ref.skip_ws r1 with
     | String c1 r2 =>
         if Ascii.eqb c1 ":" then
           '(v, r3) ← Ref.read_value f r2;
           match Ref.skip_ws r3 with
           | String c3 r' =>
               if Ascii.eqb c3 "," then
                 Ref.read_members f (Ref.put_member k v acc) r'
               else if Ascii.eqb c3 "}" then Some (Ref.put_member k v acc, r')
               else None
           | EmptyString => None
           end
         else None
     | EmptyString => None
     end).
Proof. reflexivity. Qed.

Lemma read_members_more f acc r k r2 v r' :
  Ref.read_string r = Some (k, String ":" r2) ->
  Ref.read_value f r2 = Some (v, String "," r') ->
  Ref.read_members (S f) acc (String Ref.dq r)
  = Ref.read_members f (Ref.put_member k v acc) r'.
Proof.
  intros Hk Hv. rewrite read_members_eq, Hk. cbn [mbind option_bind].
  change (Ref.skip_ws (String ":" r2)) with (String ":" r2).
  cbn [Ascii.eqb Bool.eqb]. rewrite Hv. reflexivity.
Qed.

Lemma read_members_last f acc r k r2 v r' :
  Ref.read_string r = Some (k, String ":" r2) ->
  Ref.read_value f r2 = Some (v, String "}" r') ->
  Ref.read_members (S f) acc (String Ref.dq r)
  = Some (Ref.put_member k v acc, r').
Proof.
  intros Hk Hv. rewrite read_members_eq, Hk. cbn [mbind option_bind].
  change (Ref.skip_ws (String ":" r2)) with (String ":" r2).
  cbn [Ascii.eqb Bool.eqb]. rewrite Hv. reflexivity.
Qed.

Lemma put_member_fresh k v acc :
  k ∉ map fst acc -> Ref.put_member k v acc = acc ++ [(k, v)].
Proof.
  induction acc as [|[k' v'] acc IH]; intros Hk; [reflexivity|].
  simpl in Hk. apply not_elem_of_cons in Hk as [Hne Hk].
  simpl. destruct (String.eqb_spec k k') as [?|_]; [contradiction|].
  rewrite (IH Hk). reflexivity.
Qed.

Ltac norm_app :=
  repeat first [rewrite append_cons | rewrite append_nil_l | rewrite append_assoc].

Lemma json_size_pos j : (1 <= json_size j)%nat.
Proof. destruct j; simpl; lia. Qed.

Lemma array_text l rest :
  Ref.JSON_text (JArr l) +:+ rest
  = String "[" (JsString.join "," (map Ref.JSON_text l) +:+ String "]" rest).
Proof.
  change (Ref.JSON_text (JArr l))
    with ("[" +:+ JsString.join "," (map Ref.JSON_text l) +:+ "]").
  norm_app. reflexivity.
Qed.

Lemma object_text ms rest :
  Ref.JSON_text (JObj ms) +:+ rest
  = String "{"
      (JsString.join ","
         (map (fun '(k, v) => Ref.quote k +:+ ":" +:+ Ref.JSON_text v) ms)
       +:+ String "}" rest).
Proof.
  change (Ref.JSON_text (JObj ms))
    with ("{" +:+ JsString.join ","
                    (map (fun '(k, v) => Ref.quote k +:+ ":" +:+ Ref.JSON_text v) ms)
              +:+ "}").
  norm_app. reflexivity.
Qed.

Lemma join_cons2 sep x y (l : list string) :
  JsString.join sep (x :: y :: l) = x +:+ sep +:+ JsString.join sep (y :: l).
Proof. reflexivity. Qed.

Section Structures.

Variable F : nat.
Hypothesis IH : forall f, (f < F)%nat -> forall j rest,
  (json_size j <= f)%nat -> json_wf j = true -> Ref.terminated rest = true ->
  Ref.read_value f (Ref.JSON_text j +:+ rest) = Some (j, rest).

Lemma read_elements_text l : forall f acc rest,
  (f < F)%nat -> l <> [] ->
  (fold_right (fun x n => S (json_size x + n)) O l <= f)%nat ->
  forallb json_wf l = true ->
  Ref.read_elements f acc
    (JsString.join "," (map Ref.JSON_text l) +:+ String "]" rest)
  = Some (acc ++ l, rest).
Proof.
  induction l as [|x l IHl]; intros f acc rest Hf Hne Hsize Hwf;
    [contradiction|].
  simpl in Hsize, Hwf. apply andb_true_iff in Hwf as [Hx Hl].
  destruct f as [|f]; [lia|].
  destruct l as [|y l].
  - change (JsString.join "," (map Ref.JSON_text [x])) with (Ref.JSON_text x).
    apply read_elements_last.
    apply (IH f); [lia | lia | exact Hx | reflexivity].
  - change (JsString.join "," (map Ref.JSON_text (x :: y :: l)))
      with (Ref.JSON_text x +:+ "," +:+
            JsString.join "," (map Ref.JSON_text (y :: l))).
    norm_app.
    rewrite (read_elements_more f acc _ x
               (JsString.join "," (map Ref.JSON_text (y :: l))
                +:+ String "]" rest)).
    + rewrite (IHl f (acc ++ [x]) rest)
        by (try discriminate; try assumption; lia).
      rewrite <- app_assoc. reflexivity.
    + apply (IH f); [lia | lia | exact Hx | reflexivity].
Qed.

Lemma read_members_text ms : forall f acc rest,
  (f < F)%nat -> ms <> [] ->
  (fold_right (fun '(_, v) n => S (json_size v + n)) O ms <= f)%nat ->
  NoDup (map fst acc ++ map fst ms) ->
  forallb (fun '(_, v) => json_wf v) ms = true ->
  Ref.read_members f acc
    (JsString.join ","
       (map (fun '(k, v) => Ref.quote k +:+ ":" +:+ Ref.JSON_text v) ms)
     +:+ String "}" rest)
  = Some (acc ++ ms, rest).
Proof.
  induction ms as [|[k v] ms IHms]; intros f acc rest Hf Hne Hsize Hnd Hwf;
    [contradiction|].
  simpl in Hsize, Hwf. apply andb_true_iff in Hwf as [Hv Hms].
  destruct f as [|f]; [lia|].
  assert (k ∉ map fst acc) as Hfresh.
  { apply NoDup_app in Hnd as (_ & Hdisj & _). intros Hin.
    apply (Hdisj k Hin). simpl. left. }
  assert (NoDup (map fst (acc ++ [(k, v)]) ++ map fst ms)) as Hnd'.
  { rewrite map_app, <- app_assoc. exact Hnd. }
  destruct ms as [|[k2 v2] ms].
  - change (JsString.join "," (map _ [(k, v)]))
      with (Ref.quote k +:+ ":" +:+ Ref.JSON_text v).
    unfold Ref.quote. norm_app.
    rewrite (read_members_last f acc _ k (Ref.JSON_text v +:+ String "}" rest)
               v rest).
    + rewrite put_member_fresh by exact Hfresh. reflexivity.
    + apply read_string_escaped.
    + apply (IH f); [lia | lia | exact Hv | reflexivity].
  - change (JsString.join "," (map ?g ((k, v) :: (k2, v2) :: ms)))
      with ((Ref.quote k +:+ ":" +:+ Ref.JSON_text v) +:+ "," +:+
            JsString.join "," (map g ((k2, v2) :: ms))).
    unfold Ref.quote at 1. norm_app.
    rewrite (read_members_more f acc _ k
               (Ref.JSON_text v +:+ String ","
                  (JsString.join ","
                     (map (fun '(k, v) => Ref.quote k +:+ ":" +:+ Ref.JSON_text v)
                          ((k2, v2) :: ms))
                   +:+ String "}" rest))
               v
               (JsString.join ","
                  (map (fun '(k, v) => Ref.quote k +:+ ":" +:+ Ref.JSON_text v)
                       ((k2, v2) :: ms))
                +:+ String "}" rest)).
    + rewrite put_member_fresh by exact Hfresh.
      rewrite (IHms f (acc ++ [(k, v)]) rest)
        by (try discriminate; try assumption; lia).
      rewrite <- app_assoc. reflexivity.
    + apply read_string_escaped.
    + apply (IH f); [lia | lia | exact Hv | reflexivity].
Qed.

End Structures.

Lemma join_head x (l : list JSON) tail :
  exists c r,
    JsString.join "," (map Ref.JSON_text (x :: l)) +:+ tail = String c r
    /\ Ref.value_start c = true.
Proof.
  destruct l as [|y l].
  - apply JSON_text_head.
  - change (JsString.join "," (map Ref.JSON_text (x :: y :: l)))
      with (Ref.JSON_text x +:+ "," +:+
            JsString.join "," (map Ref.JSON_text (y :: l))).
    rewrite append_assoc. apply JSON_text_head.
Qed.

Lemma members_head k v (ms : list (string * JSON)) tail :
  exists r,
    JsString.join ","
      (map (fun '(k, v) => Ref.quote k +:+ ":" +:+ Ref.JSON_text v)
           ((k, v) :: ms)) +:+ tail
    = String Ref.dq r.
Proof.
  destruct ms as [|[k2 v2] ms].
  - change (JsString.join "," (map _ [(k, v)]))
      with (Ref.quote k +:+ ":" +:+ Ref.JSON_text v).
    unfold Ref.quote. norm_app. eexists. reflexivity.
  - change (JsString.join "," (map ?g ((k, v) :: (k2, v2) :: ms)))
      with ((Ref.quote k +:+ ":" +:+ Ref.JSON_text v) +:+ "," +:+
            JsString.join "," (map g ((k2, v2) :: ms))).
    unfold Ref.quote at 1. norm_app. eexists. reflexivity.
Qed.

(** With enough fuel, the reader gives back a well-formed value from its
    text, and leaves what follows the text. *)
Lemma read_value_text : forall f j rest,
  (json_size j <= f)%nat -> json_wf j = true -> Ref.terminated rest = true ->
  Ref.read_value f (Ref.JSON_text j +:+ rest) = Some (j, rest).
Proof.
  induction f as [f IH] using lt_wf_ind. intros j rest Hsize Hwf Hrest.
  pose proof (json_size_pos j) as Hpos. destruct f as [|f]; [lia|].
  destruct j as [|b|n|s|l|ms].
  - reflexivity.
  - destruct b; reflexivity.
  - apply read_value_number, Hrest.
  - change (Ref.JSON_text (JStr s)) with (Ref.quote s). unfold Ref.quote.
    norm_app. rewrite read_value_string, read_string_escaped. reflexivity.
  - rewrite array_text. destruct l as [|x l]; [reflexivity|].
    destruct (join_head x l (String "]" rest)) as (c & r & E & Hc).
    rewrite E, (read_value_array f c r Hc), <- E.
    rewrite (read_elements_text (S f) IH (x :: l) f [] rest);
      [reflexivity | lia | discriminate | simpl in Hsize |- *; lia | exact Hwf].
  - rewrite object_text. destruct ms as [|[k v] ms]; [reflexivity|].
    simpl in Hwf. apply andb_true_iff in Hwf as [Hnd Hwf].
    apply bool_decide_eq_true in Hnd.
    destruct (members_head k v ms (String "}" rest)) as (r & E).
    rewrite E, (read_value_object f r), <- E.
    rewrite (read_members_text (S f) IH ((k, v) :: ms) f [] rest);
      [reflexivity | lia | discriminate | simpl in Hsize |- *; lia | exact Hnd
      | exact Hwf].
Qed.

Lemma length_append (a b : string) :
  String.length (a +:+ b) = (String.length a + String.length b)%nat.
Proof.
  induction a as [|c a IH]; [reflexivity|].
  rewrite append_cons. simpl. rewrite IH. reflexivity.
Qed.

Lemma append_nil_r (s : string) : s +:+ "" = s.
Proof.
  induction s as [|c s IH]; [reflexivity|].
  rewrite append_cons, IH. reflexivity.
Qed.

Lemma json_size_le_length : forall n j,
  (json_size j <= n)%nat ->
  (json_size j <= String.length (Ref.JSON_text j))%nat.
Proof.
  induction n as [n IH] using lt_wf_ind. intros j Hn.
  destruct j as [|[]|z|s|l|ms]; try (simpl; lia).
  - (* a number has a digit *)
    destruct (pretty_Z_head z "") as (c & r & E & _).
    rewrite append_nil_r in E. simpl. rewrite E. simpl. lia.
  - change (Ref.JSON_text (JArr l))
      with ("[" +:+ JsString.join "," (map Ref.JSON_text l) +:+ "]").
    rewrite !length_append. simpl in *.
    assert (forall l : list JSON,
      (fold_right (fun x n => S (json_size x + n)) O l < n)%nat ->
      (fold_right (fun x n => S (json_size x + n)) O l
       <= String.length (JsString.join "," (map Ref.JSON_text l)) + 1)%nat)
      as Hlist.
    { clear l Hn. induction l as [|x l IHl]; intros Hlt; [simpl; lia|].
      simpl in Hlt.
      assert (json_size x <= String.length (Ref.JSON_text x))%nat as Hx
        by (apply (IH (json_size x)); lia).
      destruct l as [|y l]; [simpl in *; lia|].
      change (JsString.join "," (map Ref.JSON_text (x :: y :: l)))
        with (Ref.JSON_text x +:+ "," +:+
              JsString.join "," (map Ref.JSON_text (y :: l))).
      rewrite !length_append.
      specialize (IHl ltac:(lia)).
      change (fold_right _ O (x :: y :: l))
        with (S (json_size x
                 + fold_right (fun x n => S (json_size x + n)) O (y :: l))).
      change (String.length ",") with 1%nat. lia. }
    specialize (Hlist l ltac:(lia)). lia.
  - change (Ref.JSON_text (JObj ms))
      with ("{" +:+ JsString.join ","
                      (map (fun '(k, v) => Ref.quote k +:+ ":" +:+ Ref.JSON_text v) ms)
                +:+ "}").
    rewrite !length_append. simpl in *.
    assert (forall ms : list (string * JSON),
      (fold_right (fun '(_, v) n => S (json_size v + n)) O ms < n)%nat ->
      (fold_right (fun '(_, v) n => S (json_size v + n)) O ms
       <= String.length
            (JsString.join ","
               (map (fun '(k, v) => Ref.quote k +:+ ":" +:+ Ref.JSON_text v) ms))
          + 1)%nat)
      as Hlist.
    { clear ms Hn. induction ms as [|[k v] ms IHms]; intros Hlt; [simpl; lia|].
      simpl in Hlt.
      assert (json_size v <= String.length (Ref.JSON_text v))%nat as Hv
        by (apply (IH (json_size v)); lia).
      destruct ms as [|[k2 v2] ms].
      + simpl. rewrite !length_append. simpl. lia.
      + change (JsString.join "," (map ?g ((k, v) :: (k2, v2) :: ms)))
          with (g (k, v) +:+ "," +:+ JsString.join "," (map g ((k2, v2) :: ms))).
        rewrite !length_append.
        specialize (IHms ltac:(lia)).
        change (fold_right _ O ((k, v) :: (k2, v2) :: ms))
          with (S (json_size v
                   + fold_right (fun '(_, v) n => S (json_size v + n)) O
                       ((k2, v2) :: ms))).
        change (String.length ",") with 1%nat. lia. }
    specialize (Hlist ms ltac:(lia)). lia.
Qed.

(** The reference [JSON.parse] reads back the text printed for every
    well-formed value. *)
Theorem Ref_JSON_parse_text j :
  json_wf j = true -> Ref.JSON_parse (Ref.JSON_text j) = Some j.
Proof.
  intros Hwf. unfold Ref.JSON_parse.
  pose proof (json_size_le_length _ j (le_n _)) as Hlen.
  rewrite <- (append_nil_r (Ref.JSON_text j)) at 2.
  rewrite read_value_text; [reflexivity | lia | exact Hwf | reflexivity].
Qed.

(** *** What the reference parser returns is well formed *)








(** *** Messages on the reference builtins *)

Lemma serialized_keys toISOString (o : Obj) x :
  x ∈ map fst (omap (fun '(k, v) =>
                       j ← serialize_property toISOString v; Some (k, j)) o) ->
  x ∈ Object.keys o.
Proof.
  induction o as [|[k v] o IH]; simpl; [intros H; exact H|].
  destruct (serialize_property toISOString v); simpl.
  - intros [->|H]%elem_of_cons; [left | right; exact (IH H)].
  - intros H. right. exact (IH H).
Qed.

Lemma serialize_object_wf toISOString (o : Obj) :
  NoDup (Object.keys o) ->
  forallb (fun '(_, v) => value_wf v) o = true ->
  json_wf (serialize_object toISOString o) = true.
Proof.
  intros Hnd Hwf. unfold serialize_object. simpl.
  apply andb_true_iff. split.
  - apply bool_decide_eq_true.
    induction o as [|[k v] o IH]; simpl; [constructor|].
    apply NoDup_cons in Hnd as [Hk Hnd]. simpl in Hwf.
    apply andb_true_iff in Hwf as [_ Hwf]. specialize (IH Hnd Hwf).
    destruct (serialize_property toISOString v); simpl; [|exact IH].
    apply NoDup_cons. split; [|exact IH].
    intros Hin. apply Hk. exact (serialized_keys _ _ _ Hin).
  - clear Hnd. induction o as [|[k v] o IH]; simpl; [reflexivity|].
    simpl in Hwf. apply andb_true_iff in Hwf as [Hv Hwf]. specialize (IH Hwf).
    destruct (serialize_property toISOString v) as [j|] eqn:E; simpl;
      [|exact IH].
    apply andb_true_iff. split; [|exact IH].
    destruct v as [|[|t]|j']; simpl in E; inversion E; subst;
      try reflexivity; exact Hv.
Qed.

Lemma well_formed_message_spec m :
  well_formed_message m = true ->
  storable m = true
  /\ NoDup (Object.keys m)
  /\ forallb (fun '(_, v) => value_wf v) m = true
  /\ timestamp_revives Ref.Date_parse Ref.toISOString m.
Proof.
  unfold well_formed_message. intros H.
  apply andb_true_iff in H as [H Hts]. apply andb_true_iff in H as [Hst Hwf].
  repeat split; try assumption.
  - unfold storable in Hst. apply andb_true_iff in Hst as [Hst _].
    apply andb_true_iff in Hst as [Hnd _]. apply bool_decide_eq_true in Hnd.
    exact Hnd.
  - unfold timestamp_revives.
    destruct (Object.get "timestamp" m) as [|[|t]|]; try exact I.
    apply Z.leb_le in Hts. apply Ref_Date_parse_toISOString. lia.
Qed.

(** Well-formed messages meet, on the reference builtins, what
    [save_then_load] asks of the builtins. *)
Lemma Ref_reads_back (msgs : list Message) :
  Forall (fun m => well_formed_message m = true) msgs ->
  Forall (fun m => storable m = true) msgs
  /\ Forall (timestamp_revives Ref.Date_parse Ref.toISOString) msgs
  /\ Ref.JSON_parse (JSON_stringify Ref.JSON_text Ref.toISOString msgs)
     = Some (JArr (map (serialize_object Ref.toISOString) msgs)).
Proof.
  intros Hwf. repeat split.
  - eapply Forall_impl; [exact Hwf|]. intros m Hm.
    apply (well_formed_message_spec m Hm).
  - eapply Forall_impl; [exact Hwf|]. intros m Hm.
    apply (well_formed_message_spec m Hm).
  - apply Ref_JSON_parse_text. simpl.
    induction Hwf as [|m msgs Hm _ IH]; [reflexivity|].
    destruct (well_formed_message_spec m Hm) as (_ & Hnd & Hv & _).
    cbn [map forallb]. rewrite (serialize_object_wf _ m Hnd Hv). exact IH.
Qed.


(** X16.  A page reload after the persistence effect has run: the component
    mounted on the storage left by a hydrated, non-empty session shows
    the messages of that session. *)
Lemma reload_restores_session (renders : Value -> bool) (w : World) :
  isHydrated w = true ->
  messages w <> [] ->
  Forall (fun m => well_formed_message m = true) (messages w) ->
  (LocalStorage.usage
     (<[STORAGE_KEY :=
          JSON_stringify Ref.JSON_text Ref.toISOString (messages w)]>
        (items (localStorage w)))
   <= quota (localStorage w))%N ->
  Forall2 same_message (messages w)
    (messages
       (mount Ref.JSON_parse Ref.JSON_text Ref.Date_parse Ref.toISOString
          renders
          (localStorage (persist Ref.JSON_text Ref.toISOString w)))).
Proof.
  intros Hhyd Hne Hwf Hquota. rewrite mount_messages.
  destruct (Ref_reads_back (messages w) Hwf) as (Hstorable & Hdates & Htext).
  pose proof (save_then_load Ref.JSON_parse Ref.JSON_text Ref.Date_parse
                Ref.toISOString (localStorage w) (messages w)
                Hstorable Hdates eq_refl Htext Hquota) as Hload.
  unfold persist. rewrite Hhyd.
  destruct (messages w) as [|m ms] eqn:Em; [contradiction|].
  cbn [length Nat.ltb Nat.leb andb].
  unfold saveMessagesToStorage in *. exact Hload.
Qed.





(* ===================================================================== *)
(** ** The component run on the reference builtins                        *)
(* ===================================================================== *)

Local Abbreviation ref_mount :=
  (mount Ref.JSON_parse Ref.JSON_text Ref.Date_parse Ref.toISOString
     renders_every_content).
Local Abbreviation ref_send :=
  (sendMessage Ref.JSON_text Ref.toISOString None renders_every_content).
Local Abbreviation ref_settle :=
  (sendMessage_settle Ref.JSON_parse Ref.JSON_text Ref.toISOString
     renders_every_content).
Local Abbreviation ref_run :=
  (run Ref.JSON_parse Ref.JSON_text Ref.toISOString None
     renders_every_content).
Local Abbreviation ref_step :=
  (step Ref.JSON_parse Ref.JSON_text Ref.toISOString None
     renders_every_content).
Local Abbreviation ref_load :=
  (loadMessagesFromStorage Ref.JSON_parse Ref.Date_parse).
Local Abbreviation ref_save :=
  (saveMessagesToStorage Ref.JSON_text Ref.toISOString).

(** C1, as stated, fails on a 2xx response whose JSON body has no
    [answer]: the body [{}] is read without error, so the [catch] block is
    not entered and the appended message holds [undefined] as content, not
    the apology. *)
Lemma C1_counterexample_body_without_answer :
  let w1 := ref_send "hello" Demo.e1 (ref_mount Demo.empty_storage) in
  let w2 := ref_settle (Resolved Demo.no_answer) Demo.e2 w1 in
  ok Demo.no_answer = true
  /\ Ref.JSON_parse (body Demo.no_answer) = Some (JObj [])
  /\ Object.property (JObj []) "answer" = Ok Undefined
  /\ messages w2 = messages w1 ++ [botMsg Demo.e2 Undefined Undefined]
  /\ messages w2 <> messages w1 ++ [errorMsg Demo.e2]
  /\ Object.get "content" (botMsg Demo.e2 Undefined Undefined)
     <> Json (JStr apology).
Proof.
  vm_compute. repeat split; try reflexivity; discriminate.
Qed.

Lemma C1_witness_server_error :
  let w1 := ref_send "hello" Demo.e1 (ref_mount Demo.empty_storage) in
  request_failed Ref.JSON_parse (Resolved Demo.server_error)
  /\ messages (ref_settle (Resolved Demo.server_error) Demo.e2 w1)
     = messages w1 ++ [errorMsg Demo.e2].
Proof.
  intros w1.
  assert (request_failed Ref.JSON_parse (Resolved Demo.server_error)) as H
    by (left; reflexivity).
  split; [exact H|].
  exact (proj1 (C1_failure_appends_apology Ref.JSON_parse Ref.JSON_text
                  Ref.toISOString renders_every_content
                  (Resolved Demo.server_error) Demo.e2 w1 H)).
Defined.

Lemma C2_witness_blank_text :
  JsString.whitespace_only "   " = true
  /\ ref_send "   " Demo.e1 (ref_mount Demo.empty_storage)
     = ref_mount Demo.empty_storage.
Proof.
  split; [reflexivity|].
  apply (C2_submit_noop Ref.JSON_text Ref.toISOString None
           renders_every_content).
  left. reflexivity.
Defined.

Lemma C3_witness_hi_from_web :
  let w := ref_mount Demo.empty_storage in
  let w1 := ref_send " hello " Demo.e1 w in
  let w2 := ref_settle (Resolved Demo.success) Demo.e2 w1 in
  Ref.JSON_parse (body Demo.success)
  = Some (JObj [("answer", JStr "hi"); ("source", JStr "WEB")])
  /\ messages w1
     = [ [ ("id", Json (JStr "1730487600123-k3j9x0a"));
           ("role", Json (JStr "user"));
           ("content", Json (JStr "hello"));
           ("timestamp", DateV (TimeValue 1730487600123)) ] ]
  /\ messages w2
     = [ [ ("id", Json (JStr "1730487600123-k3j9x0a"));
           ("role", Json (JStr "user"));
           ("content", Json (JStr "hello"));
           ("timestamp", DateV (TimeValue 1730487600123)) ];
         [ ("id", Json (JStr "1730487601456-q81mzp4"));
           ("role", Json (JStr "bot"));
           ("content", Json (JStr "hi"));
           ("source", Json (JStr "WEB"));
           ("timestamp", DateV (TimeValue 1730487601457)) ] ]
  /\ " hello " = " " +:+ "hello" +:+ " ".
Proof.
  intros w w1 w2. split; [vm_compute; reflexivity|].
  assert (JsString.whitespace_only " hello " = false) as Htext
    by reflexivity.
  assert (isLoading w = false) as Hidle by reflexivity.
  assert (ok Demo.success = true) as Hok by reflexivity.
  assert (Ref.JSON_parse (body Demo.success)
          = Some (JObj [("answer", JStr "hi"); ("source", JStr "WEB")]))
    as Hparse by (vm_compute; reflexivity).
  destruct (C3_submit_then_success Ref.JSON_parse Ref.JSON_text
              Ref.toISOString None renders_every_content " hello " Demo.e1
              Demo.e2 w Demo.success
              (JObj [("answer", JStr "hi"); ("source", JStr "WEB")])
              (Json (JStr "hi")) (Json (JStr "WEB"))
              Htext Hidle Hok Hparse eq_refl eq_refl)
    as (H1 & _ & _ & H2 & _).
  split; [|split; [|reflexivity]].
  - etransitivity; [exact H1|]. vm_compute. reflexivity.
  - etransitivity; [exact H2|]. vm_compute. reflexivity.
Defined.

Lemma C5_witness_corrupt_storage :
  LocalStorage.getItem STORAGE_KEY Demo.corrupt_storage = Some "<<not json>>"
  /\ Ref.JSON_parse "<<not json>>" = None
  /\ ref_load (Some Demo.corrupt_storage) = [].
Proof.
  split; [reflexivity|]. split; [reflexivity|].
  apply (C5_load_unreadable Ref.JSON_parse Ref.Date_parse).
  right. right. exists "<<not json>>". split; reflexivity.
Defined.

Lemma C10_witness_number :
  LocalStorage.getItem STORAGE_KEY Demo.number_storage = Some "42"
  /\ Ref.JSON_parse "42" = Some (JNum 42)
  /\ ref_load (Some Demo.number_storage) = [].
Proof.
  split; [reflexivity|]. split; [reflexivity|].
  refine (proj2 (C10_load_non_array Ref.JSON_parse Ref.Date_parse
                   Demo.number_storage "42" (JNum 42) _ _ _));
    [reflexivity | reflexivity | discriminate].
Defined.

(** C9, as stated, fails twice: an empty session shows three shortcuts,
    not four; and a session emptied by the clear control while a request
    is in flight is empty and shows none. *)
Lemma C9_counterexample_three_and_hidden :
  let w := ref_mount Demo.empty_storage in
  let busy := ref_run [Typed "hello"; Submitted Demo.e1; ClearClicked] w in
  messages w = []
  /\ length (suggestion_buttons (render w)) = 3%nat
  /\ length (suggestion_buttons (render w)) <> 4%nat
  /\ messages busy = []
  /\ isLoading busy = true
  /\ suggestion_buttons (render busy) = [].
Proof.
  vm_compute. repeat split; try reflexivity; discriminate.
Qed.

(* ===================================================================== *)
(** ** The copy control of code blocks                                     *)
(* ===================================================================== *)

Lemma array_join_text items :
  forallb (fun i => match i with Markdown.RText _ => true | _ => false end)
          items = true ->
  Markdown.array_join "" items
  = JsString.join "" (map Markdown.text_content items).
Proof.
  unfold Markdown.array_join. induction items as [|i items IH]; [reflexivity|].
  intros H. apply andb_true_iff in H as [Hi H]. specialize (IH H).
  destruct i; try discriminate.
  destruct items as [|j items]; [reflexivity|].
  change (JsString.join "" (map ?f (?x :: j :: items)))
    with (f x +:+ "" +:+ JsString.join "" (map f (j :: items))).
  rewrite IH. reflexivity.
Qed.

(** X17.  On a code element with a language class whose children are text only,
    the copy control is shown exactly when the trimmed text is longer than
    50 characters. *)
Lemma copy_control_on_plain_text copied className children :
  Markdown.isCodeBlock className = true ->
  Markdown.is_plain_text children = true ->
  Markdown.shows_copy_control (Markdown.code copied className children)
  = (50 <? String.length (JsString.trim (Markdown.text_content children)))%nat.
Proof.
  intros Hblock Hplain. unfold Markdown.code. rewrite Hblock.
  unfold Markdown.CopyableCodeBlock, Markdown.shouldShowCopyButton,
    Markdown.childString. simpl.
  destruct children as [s| | | | | |l]; try discriminate; simpl.
  - destruct (_ <? _)%nat; reflexivity.
  - rewrite (array_join_text l Hplain).
    destruct (_ <? _)%nat; reflexivity.
Qed.

Example copy_control_40_and_60 :
  String.length (JsString.trim Demo.forty) = 40%nat
  /\ Markdown.shows_copy_control
       (Markdown.code false (Some "language-js") (Markdown.RText Demo.forty))
     = false
  /\ String.length (JsString.trim Demo.sixty) = 60%nat
  /\ Markdown.shows_copy_control
       (Markdown.code false (Some "language-js") (Markdown.RText Demo.sixty))
     = true.
Proof. repeat split; reflexivity. Qed.

(** A code element without a language class never gets the control. *)
Lemma no_language_no_copy_control copied className children :
  Markdown.isCodeBlock className = false ->
  Markdown.shows_copy_control (Markdown.code copied className children) = false.
Proof. intros H. unfold Markdown.code. rewrite H. reflexivity. Qed.

(** C8 (the code departs from it).  The length tested is that of
    [String(children)], and a child that is an element prints as
    "[object Object]": a block whose 60 characters sit in one highlighted
    line gets no copy control, and a block of 35 characters spread over
    four highlighted lines gets one. *)
Theorem C8_highlighted_children_miscounted :
  Markdown.isCodeBlock (Some "language-js") = true
  /\ String.length (JsString.trim (Markdown.text_content Demo.highlighted_line))
     = 60%nat
  /\ Markdown.childString Demo.highlighted_line = "[object Object]"
  /\ Markdown.shows_copy_control
       (Markdown.code false (Some "language-js") Demo.highlighted_line)
     = false
  /\ String.length (JsString.trim (Markdown.text_content Demo.four_lines))
     = 35%nat
  /\ Markdown.shows_copy_control
       (Markdown.code false (Some "language-js") Demo.four_lines)
     = true.
Proof. repeat split; reflexivity. Qed.

(* ===================================================================== *)
(** ** Identifiers                                                         *)
(* ===================================================================== *)

Local Abbreviation not_dash := (fun c : ascii => negb (Ascii.eqb c "-")).

Lemma pretty_N_char_not_dash d : not_dash (pretty_N_char d) = true.
Proof.
  destruct d as [|p]; [reflexivity|].
  do 4 (destruct p as [p|p|]; try reflexivity).
Qed.

Lemma pretty_N_go_not_dash x : forall s,
  JsString.every_unit not_dash s = true ->
  JsString.every_unit not_dash (pretty_N_go x s) = true.
Proof.
  induction x as [x IH] using (well_founded_induction N.lt_wf_0). intros s Hs.
  destruct (decide (x = 0%N)) as [->|Hx].
  - rewrite pretty_N_go_0. exact Hs.
  - rewrite pretty_N_go_step by lia. apply IH.
    + apply N.div_lt; lia.
    + simpl. rewrite pretty_N_char_not_dash. exact Hs.
Qed.

(** The decimal form of a number that is not negative: digits only, and
    at least one. *)
Lemma pretty_nonneg_not_dash (n : Z) :
  0 <= n ->
  JsString.every_unit not_dash (pretty n) = true
  /\ exists c r, pretty n = String c r.
Proof.
  intros Hn. destruct n as [|p|p]; [split; [reflexivity | eauto] | | lia].
  change (pretty (Z.pos p)) with (pretty_N_go (N.pos p) "").
  split; [apply pretty_N_go_not_dash; reflexivity|].
  destruct (pretty_N_go_head (N.pos p) "") as (c & r & _ & H & _); [lia|].
  eauto.
Qed.

(** A text is cut at its first dash in one way only. *)
Lemma dash_split (a a' r r' : string) :
  JsString.every_unit not_dash a = true ->
  JsString.every_unit not_dash a' = true ->
  a +:+ String "-" r = a' +:+ String "-" r' ->
  a = a' /\ r = r'.
Proof.
  revert a'. induction a as [|c a IH]; intros [|c' a'] Ha Ha' H.
  - injection H as ->. split; reflexivity.
  - rewrite append_nil_l, append_cons in H. injection H as <- _.
    simpl in Ha'. discriminate.
  - rewrite append_nil_l, append_cons in H. injection H as -> _.
    simpl in Ha. discriminate.
  - rewrite !append_cons in H. injection H as -> H.
    simpl in Ha, Ha'.
    apply andb_true_iff in Ha as [_ Ha]. apply andb_true_iff in Ha' as [_ Ha'].
    destruct (IH a' Ha Ha' H) as [-> ->]. split; reflexivity.
Qed.

(** X18.  An identifier determines the two readings it was built from: the
    dash after the clock reading cuts it in one way only, so two messages
    get the same identifier only when both the clock and the random
    suffix repeat. *)
Theorem generateId_injective (e e' : Entropy) :
  generateId e = generateId e' <->
  id_now e = id_now e' /\ id_random e = id_random e'.
Proof.
  split; [|intros [H1 H2]; unfold generateId; rewrite H1, H2; reflexivity].
  unfold generateId.
  change ("-" +:+ id_random e) with (String "-" (id_random e)).
  change ("-" +:+ id_random e') with (String "-" (id_random e')).
  intros H.
  assert (forall p q r r',
    pretty (Z.neg p) +:+ String "-" r = pretty (Z.neg q) +:+ String "-" r' ->
    Z.neg p = Z.neg q /\ r = r') as Hneg.
  { intros p q r r'.
    change (pretty (Z.neg p)) with ("-" +:+ pretty (Z.pos p)).
    change (pretty (Z.neg q)) with ("-" +:+ pretty (Z.pos q)).
    rewrite !append_assoc, !append_cons, !append_nil_l. intros [= Hpq].
    destruct (pretty_nonneg_not_dash (Z.pos p)) as [Hp _]; [lia|].
    destruct (pretty_nonneg_not_dash (Z.pos q)) as [Hq _]; [lia|].
    destruct (dash_split _ _ _ _ Hp Hq Hpq) as [Heq ->].
    apply (inj pretty) in Heq. split; congruence. }
  assert (forall n p r r',
    0 <= n ->
    pretty n +:+ String "-" r <> pretty (Z.neg p) +:+ String "-" r') as Hmix.
  { intros n p r r' Hn.
    destruct (pretty_nonneg_not_dash n Hn) as [Hd (c & s & Hs)].
    rewrite Hs in *.
    change (pretty (Z.neg p)) with ("-" +:+ pretty (Z.pos p)).
    rewrite !append_assoc, !append_cons, !append_nil_l. intros [= -> _].
    simpl in Hd. discriminate. }
  destruct (Z_lt_le_dec (id_now e) 0) as [Hn|Hn];
    destruct (Z_lt_le_dec (id_now e') 0) as [Hn'|Hn'].
  - destruct (id_now e) as [|p|p]; try lia.
    destruct (id_now e') as [|q|q]; try lia.
    apply Hneg. exact H.
  - destruct (id_now e) as [|p|p]; try lia.
    exfalso. symmetry in H. revert H. apply Hmix. exact Hn'.
  - destruct (id_now e') as [|q|q]; try lia.
    exfalso. revert H. apply Hmix. exact Hn.
  - destruct (pretty_nonneg_not_dash _ Hn) as [Hd _].
    destruct (pretty_nonneg_not_dash _ Hn') as [Hd' _].
    destruct (dash_split _ _ _ _ Hd Hd' H) as [Heq ->].
    apply (inj pretty) in Heq. split; [exact Heq | reflexivity].
Qed.

(* ===================================================================== *)
(** ** The request                                                         *)
(* ===================================================================== *)

(** X19.  The request [sendMessage] issues: a POST of a JSON object whose only
    member, "query", holds the trimmed text, with whatever characters the
    text has; the address is the configured one, or the empty string
    when none, or an empty one, is configured. *)
Theorem request_carries_trimmed_query (key : option string) (text : string) :
  method (request Ref.JSON_text key text) = "POST"
  /\ content_type (request Ref.JSON_text key text) = "application/json"
  /\ Ref.JSON_parse (payload (request Ref.JSON_text key text))
     = Some (JObj [("query", JStr (JsString.trim text))])
  /\ (url (request Ref.JSON_text key text) = "" <->
      key = None \/ key = Some "").
Proof.
  split; [reflexivity|]. split; [reflexivity|]. split.
  - apply Ref_JSON_parse_text. reflexivity.
  - unfold request, apiUrl. simpl.
    destruct key as [[|c u]|]; simpl; split; intros H;
      try reflexivity; try discriminate; auto.
    destruct H as [H|H]; discriminate.
Qed.

(* ===================================================================== *)
(** ** Sessions on the reference builtins                                  *)
(* ===================================================================== *)


(* ===================================================================== *)
(** ** More on the copy control                                            *)
(* ===================================================================== *)

Lemma trimEnd_app (a b : string) :
  b <> "" -> JsString.trimEnd b = b -> JsString.trimEnd (a +:+ b) = a +:+ b.
Proof.
  intros Hb Hfix. induction a as [|c a IH]; [exact Hfix|].
  rewrite append_cons. simpl. rewrite IH.
  destruct (a +:+ b) eqn:E.
  - destruct a; [rewrite append_nil_l in E; contradiction | discriminate].
  - simpl. rewrite andb_false_r. reflexivity.
Qed.

(** The text [join] makes of [n] elements: "[object Object]", [n]
    times over. *)
Lemma array_join_elements (items : list Markdown.ReactNode) :
  Forall (fun i => exists tag children, i = Markdown.RElement tag children)
         items ->
  items <> [] ->
  JsString.trim (Markdown.array_join "" items) = Markdown.array_join "" items
  /\ (exists r, Markdown.array_join "" items = String "[" r)
  /\ String.length (Markdown.array_join "" items) = (15 * length items)%nat.
Proof.
  unfold Markdown.array_join.
  induction 1 as [|i items (tag & children & ->) Hitems IH]; intros Hne;
    [contradiction|].
  destruct items as [|j items].
  - repeat split. eexists. reflexivity.
  - destruct IH as (Htrim & (r & Hr) & Hlen); [discriminate|].
    change (JsString.join ""
              (map ?f (Markdown.RElement tag children :: j :: items)))
      with ("[object Object]" +:+ "" +:+ JsString.join "" (map f (j :: items))).
    rewrite append_nil_l. repeat split.
    + unfold JsString.trim in *. rewrite Hr in *.
      change (JsString.trimStart (String "[" r)) with (String "[" r) in Htrim.
      change (JsString.trimStart ("[object Object]" +:+ String "[" r))
        with ("[object Object]" +:+ String "[" r).
      apply trimEnd_app; [discriminate | exact Htrim].
    + eexists. reflexivity.
    + rewrite length_append, Hlen. simpl String.length.
      change (length (Markdown.RElement tag children :: j :: items))
        with (S (length (j :: items))). lia.
Qed.

(** X21.  Once the children are elements, as the highlighter makes them, the
    copy control no longer depends on the code they hold: one element
    never gets it, and a sequence of elements gets it exactly when there
    are four or more of them. *)
Theorem elements_counted_not_measured (items : list Markdown.ReactNode)
    (tag : string) (children : list Markdown.ReactNode) :
  Forall (fun i => exists tag children, i = Markdown.RElement tag children)
         items ->
  Markdown.shouldShowCopyButton (Markdown.RArray items)
  = (4 <=? length items)%nat
  /\ Markdown.shouldShowCopyButton (Markdown.RElement tag children) = false.
Proof.
  intros Hitems. split; [|reflexivity].
  unfold Markdown.shouldShowCopyButton, Markdown.childString.
  destruct items as [|i items]; [reflexivity|].
  destruct (array_join_elements (i :: items) Hitems) as (-> & _ & ->);
    [discriminate|].
  destruct (50 <? _)%nat eqn:E1; destruct (4 <=? _)%nat eqn:E2;
    try reflexivity.
  - apply Nat.ltb_lt in E1. apply Nat.leb_gt in E2. lia.
  - apply Nat.ltb_ge in E1. apply Nat.leb_le in E2. lia.
Qed.

(** X22.  The acknowledgement of a copy.  In every state the block reaches, the
    timeouts still to run are due within the next two seconds, and the
    label "Copied!" is up only while one of them is; so two seconds
    without a click always bring the label "Copy" back. *)
Theorem copy_label_resets (evs : list Markdown.CopyEvent) (clip : string)
    (t0 : Z) :
  let st := Markdown.copy_run evs (Markdown.copy_initial clip t0) in
  Forall (fun due => Markdown.clock st < due <= Markdown.clock st + 2000)
         (Markdown.timeouts st)
  /\ (Markdown.copied st = true -> Markdown.timeouts st <> [])
  /\ Markdown.copied (Markdown.elapse 2000 st) = false
  /\ Markdown.timeouts (Markdown.elapse 2000 st) = [].
Proof.
  intros st.
  assert (Forall
            (fun due => Markdown.clock st < due <= Markdown.clock st + 2000)
                 (Markdown.timeouts st)
          /\ (Markdown.copied st = true -> Markdown.timeouts st <> []))
    as [Hdue Hup].
  { subst st. unfold Markdown.copy_run.
    induction evs as [|ev evs IH] using rev_ind.
    - split; [constructor | discriminate].
    - rewrite fold_left_app. simpl.
      destruct IH as [Hdue Hup].
      set (st := fold_left _ evs _) in *.
      destruct ev as [[node|] [|]|d]; simpl; try (split; assumption).
      + split; [|intros _; intros H; apply app_eq_nil in H as [_ H];
                 discriminate].
        apply Forall_app. split; [exact Hdue|].
        constructor; [lia | constructor].
      + split.
        * apply List.Forall_forall. intros due Hin.
          apply filter_In in Hin as [Hin Hlate].
          rewrite List.Forall_forall in Hdue. specialize (Hdue due Hin).
          apply negb_true_iff, Z.leb_gt in Hlate. lia.
        * destruct (existsb _ (Markdown.timeouts st)) eqn:E; [discriminate|].
          intros Hc. specialize (Hup Hc).
          destruct (Markdown.timeouts st) as [|due dues]; [contradiction|].
          simpl in E. apply orb_false_iff in E as [E _].
          simpl. rewrite E. discriminate. }
  split; [exact Hdue|]. split; [exact Hup|].
  assert (forallb (fun due => due <=? Markdown.clock st + Z.of_N 2000)
                  (Markdown.timeouts st) = true) as Hall.
  { apply forallb_forall. intros due Hin.
    rewrite List.Forall_forall in Hdue. specialize (Hdue due Hin).
    apply Z.leb_le. lia. }
  unfold Markdown.elapse. cbn [Markdown.copied Markdown.timeouts].
  destruct (Markdown.timeouts st) as [|due dues] eqn:Et.
  - split; [|reflexivity]. simpl.
    destruct (Markdown.copied st); [|reflexivity].
    exfalso. apply Hup; reflexivity.
  - split.
    + simpl in Hall. apply andb_true_iff in Hall as [Hd _].
      simpl. rewrite Hd. reflexivity.
    + clear -Hall. induction (due :: dues) as [|x l IH]; [reflexivity|].
      simpl in Hall. apply andb_true_iff in Hall as [Hx Hl].
      simpl. rewrite Hx. simpl. apply IH, Hl.
Qed.

(** X23.  A second copy does not postpone the reset: a timeout that is pending
    runs when it is due, whatever was clicked in between, and takes the
    label "Copied!" down. *)
Theorem copy_reset_not_postponed (st : Markdown.CopyState)
    (clicks : list Markdown.CopyEvent) (due : Z) (d : N) :
  In due (Markdown.timeouts st) ->
  due <= Markdown.clock st + Z.of_N d ->
  Forall (fun ev => exists codeRef written,
                      ev = Markdown.CopyClicked codeRef written) clicks ->
  Markdown.copied (Markdown.elapse d (Markdown.copy_run clicks st)) = false.
Proof.
  intros Hin Hdue Hclicks.
  assert (In due (Markdown.timeouts (Markdown.copy_run clicks st))
          /\ Markdown.clock (Markdown.copy_run clicks st) = Markdown.clock st)
    as [Hin' Hclock].
  { revert st Hin Hdue. unfold Markdown.copy_run.
    induction Hclicks as [|ev clicks (codeRef & written & ->) _ IH];
      intros st Hin Hdue; [split; [exact Hin | reflexivity]|].
    simpl.
    destruct codeRef as [node|]; [destruct written|]; simpl;
      try (apply IH; assumption).
    destruct (IH {| Markdown.copied := true;
                    Markdown.clipboard := Markdown.text_content node;
                    Markdown.timeouts := Markdown.timeouts st
                                         ++ [Markdown.clock st + 2000];
                    Markdown.clock := Markdown.clock st |}) as [H1 H2].
    - simpl. apply in_or_app. left. exact Hin.
    - exact Hdue.
    - split; [exact H1 | exact H2]. }
  unfold Markdown.elapse. cbn [Markdown.copied].
  replace (existsb _ _) with true; [reflexivity|].
  symmetry. apply existsb_exists. exists due. split; [exact Hin'|].
  apply Z.leb_le. rewrite Hclock. exact Hdue.
Qed.

(* ===================================================================== *)
(** ** The further properties on concrete sessions                         *)
(* ===================================================================== *)

Lemma shown_suggestion_is_sent_witness :
  let w := ref_mount Demo.empty_storage in
  let b := {| label := "What sources do you use?";
              onClick := CallSendMessage "What sources do you use?" |} in
  messages (ref_run [SuggestionClicked 1 Demo.e1] w)
  = messages w ++ [userMsg Demo.e1 (label b)]
  /\ isLoading (ref_run [SuggestionClicked 1 Demo.e1] w) = true
  /\ inflight (ref_run [SuggestionClicked 1 Demo.e1] w)
     = inflight w ++ [request Ref.JSON_text None (label b)].
Proof.
  intros w b.
  apply (shown_suggestion_is_sent Ref.JSON_parse Ref.JSON_text
           Ref.toISOString None renders_every_content 1%nat b Demo.e1 w).
  reflexivity.
Defined.

Lemma user_message_is_trimmed_witness :
  let w := ref_mount Demo.empty_storage in
  messages (ref_send " hello " Demo.e1 w)
  = messages w ++ [userMsg Demo.e1 " hello "]
  /\ exists t, Object.get "content" (userMsg Demo.e1 " hello ") = Json (JStr t)
               /\ t <> "" /\ JsString.trim t = t.
Proof.
  intros w.
  apply (user_message_is_trimmed Ref.JSON_text Ref.toISOString None
           renders_every_content " hello " Demo.e1 w).
  intros H. apply (f_equal isLoading) in H. vm_compute in H. discriminate.
Defined.

Lemma quota_failure_is_swallowed_witness :
  let w := ref_mount Demo.tiny_storage in
  localStorage (ref_send "hello" Demo.e1 w) = Demo.tiny_storage
  /\ messages (ref_send "hello" Demo.e1 w) = [userMsg Demo.e1 "hello"]
  /\ inflight (ref_send "hello" Demo.e1 w)
     = [request Ref.JSON_text None "hello"].
Proof.
  intros w.
  apply (quota_failure_is_swallowed Ref.JSON_text Ref.toISOString None
           renders_every_content "hello" Demo.e1 w).
  - discriminate.
  - reflexivity.
  - vm_compute. reflexivity.
Defined.

Lemma storage_mirrors_session_witness :
  let w := ref_run [Typed "hello"] (ref_mount Demo.empty_storage) in
  let w' := ref_step (Submitted Demo.e1) w in
  let w2 := ref_step (Settled (Resolved Demo.object_source) Demo.e2) w' in
  Forall (displayed renders_every_content) (messages w')
  /\ LocalStorage.getItem STORAGE_KEY (localStorage w')
     = Some (JSON_stringify Ref.JSON_text Ref.toISOString (messages w'))
  /\ length (messages w2) = 2%nat
  /\ localStorage w2 = localStorage w'.
Proof.
  intros w w' w2.
  assert (Forall (displayed renders_every_content) (messages w')) as Hshown.
  { repeat constructor. eexists. split; reflexivity. }
  split; [exact Hshown|]. split; [|split; [reflexivity|]].
  - refine (proj1 (storage_mirrors_session Ref.JSON_parse Ref.JSON_text
                     Ref.toISOString None renders_every_content
                     (Submitted Demo.e1) w _ _ _ _)
                  Hshown).
    + reflexivity.
    + intros H. vm_compute in H. discriminate.
    + intros H. vm_compute in H. discriminate.
    + apply N.leb_le. vm_compute. reflexivity.
  - refine (proj2 (storage_mirrors_session Ref.JSON_parse Ref.JSON_text
                     Ref.toISOString None renders_every_content
                     (Settled (Resolved Demo.object_source) Demo.e2) w'
                     _ _ _ _) _).
    + reflexivity.
    + intros H. vm_compute in H. discriminate.
    + intros H. vm_compute in H. discriminate.
    + apply N.leb_le. vm_compute. reflexivity.
    + right. left. exact I.
Defined.

Lemma other_entries_untouched_witness :
  let w := ref_run [Typed "hello"] (ref_mount Demo.themed_storage) in
  let w' := ref_step (Submitted Demo.e1) w in
  LocalStorage.getItem "theme" (localStorage w')
  = LocalStorage.getItem "theme" (localStorage w)
  /\ quota (localStorage w') = quota (localStorage w).
Proof.
  intros w w'.
  apply (other_entries_untouched Ref.JSON_parse Ref.JSON_text
           Ref.toISOString None renders_every_content (Submitted Demo.e1) w
           "theme").
  discriminate.
Defined.

Lemma load_stored_array_witness :
  ref_load (Some Demo.null_element_storage) = []
  /\ ref_load (Some Demo.hidden_toString_storage) = []
  /\ length (ref_load (Some Demo.odd_timestamps_storage)) = 4%nat.
Proof.
  split; [|split].
  - refine (proj1 (proj2 (proj2
      (load_stored_array Ref.JSON_parse Ref.Date_parse
         Demo.null_element_storage
         (Ref.JSON_text (JArr [JObj [("content", JStr "kept?")]; JNull]))
         [JObj [("content", JStr "kept?")]; JNull] _ _ _))) _).
    + reflexivity.
    + intros H. vm_compute in H. discriminate.
    + vm_compute. reflexivity.
    + right. left. reflexivity.
  - refine (proj2 (proj2 (proj2
      (load_stored_array Ref.JSON_parse Ref.Date_parse
         Demo.hidden_toString_storage
         (Ref.JSON_text
            (JArr [JObj [("role", JStr "bot");
                         ("timestamp", JObj [("toString", JNum 1)])]]))
         [JObj [("role", JStr "bot");
                ("timestamp", JObj [("toString", JNum 1)])]] _ _ _)))
      (JObj [("role", JStr "bot");
             ("timestamp", JObj [("toString", JNum 1)])])
      [("toString", JNum 1)] _ _ _).
    + reflexivity.
    + intros H. vm_compute in H. discriminate.
    + vm_compute. reflexivity.
    + left. reflexivity.
    + reflexivity.
    + left. reflexivity.
  - refine (proj1 (proj2
      (load_stored_array Ref.JSON_parse Ref.Date_parse
         Demo.odd_timestamps_storage
         (Ref.JSON_text (JArr Demo.odd_timestamps))
         Demo.odd_timestamps _ _ _)) _).
    + reflexivity.
    + intros H. vm_compute in H. discriminate.
    + vm_compute. reflexivity.
    + repeat constructor.
Defined.

Lemma load_revives_each_element_witness :
  Forall2 (revived Ref.Date_parse) Demo.odd_timestamps
    (ref_load (Some Demo.odd_timestamps_storage))
  /\ map (Object.get "timestamp")
         (ref_load (Some Demo.odd_timestamps_storage))
     = [ DateV (TimeValue 0); DateV (TimeValue 5); DateV InvalidDate;
         DateV (TimeValue 1730487600123) ].
Proof.
  split; [|vm_compute; reflexivity].
  apply (load_revives_each_element Ref.JSON_parse Ref.Date_parse
           Demo.odd_timestamps_storage
           (Ref.JSON_text (JArr Demo.odd_timestamps)) Demo.odd_timestamps).
  - reflexivity.
  - intros H. vm_compute in H. discriminate.
  - vm_compute. reflexivity.
  - repeat constructor.
Defined.

Lemma mount_keeps_unreadable_entry_witness :
  localStorage (ref_mount Demo.corrupt_storage) = Demo.corrupt_storage
  /\ messages (ref_mount Demo.corrupt_storage) = []
  /\ isHydrated (ref_mount Demo.corrupt_storage) = true
  /\ suggestion_buttons (render (ref_mount Demo.corrupt_storage)) <> [].
Proof.
  apply (mount_keeps_unreadable_entry Ref.JSON_parse Ref.JSON_text
           Ref.Date_parse Ref.toISOString renders_every_content
           Demo.corrupt_storage).
  reflexivity.
Defined.

Lemma clear_then_settle_keeps_reply_witness :
  let w := ref_run [Typed "hello"; Submitted Demo.e1]
             (ref_mount Demo.empty_storage) in
  exists m,
    messages (ref_run [ClearClicked; Settled (Resolved Demo.success) Demo.e2] w)
    = [m]
    /\ Object.get "role" m = Json (JStr "bot")
    /\ LocalStorage.getItem STORAGE_KEY
         (localStorage (ref_step ClearClicked w)) = None.
Proof.
  intros w.
  apply (clear_then_settle_keeps_reply Ref.JSON_parse Ref.JSON_text
           Ref.toISOString None renders_every_content w
           (request Ref.JSON_text None "hello") []
           (Resolved Demo.success) Demo.e2).
  - intros H. vm_compute in H. discriminate.
  - reflexivity.
Defined.


Lemma reload_restores_session_witness :
  let w := ref_run [Typed "hello"; Submitted Demo.e1;
                    Settled (Resolved Demo.success) Demo.e2]
             (ref_mount Demo.empty_storage) in
  Forall2 same_message (messages w)
    (messages
       (ref_mount (localStorage (persist Ref.JSON_text Ref.toISOString w)))).
Proof.
  intros w.
  apply (reload_restores_session renders_every_content w).
  - reflexivity.
  - intros H. vm_compute in H. discriminate.
  - assert (messages w
            = [userMsg Demo.e1 "hello";
               botMsg Demo.e2 (Json (JStr "hi")) (Json (JStr "WEB"))]) as ->
      by (vm_compute; reflexivity).
    repeat constructor.
  - apply N.leb_le. vm_compute. reflexivity.
Defined.

Lemma copy_control_on_plain_text_witness :
  Markdown.shows_copy_control
    (Markdown.code false (Some "language-js") (Markdown.RText Demo.sixty))
  = (50 <? String.length
             (JsString.trim
                (Markdown.text_content (Markdown.RText Demo.sixty))))%nat.
Proof.
  apply (copy_control_on_plain_text false (Some "language-js")
           (Markdown.RText Demo.sixty)); reflexivity.
Defined.

Lemma elements_counted_not_measured_witness :
  Markdown.shouldShowCopyButton Demo.four_lines = (4 <=? 4)%nat
  /\ Markdown.shouldShowCopyButton Demo.highlighted_line = false.
Proof.
  apply (elements_counted_not_measured
           [ Markdown.RElement "span"
               [Markdown.RText "let a=1;"; Markdown.RText (String "010" "")];
             Markdown.RElement "span"
               [Markdown.RText "let b=2;"; Markdown.RText (String "010" "")];
             Markdown.RElement "span"
               [Markdown.RText "let c=3;"; Markdown.RText (String "010" "")];
             Markdown.RElement "span"
               [Markdown.RText "let d=4;"; Markdown.RText (String "010" "")] ]
           "span" [Markdown.RText Demo.sixty]).
  repeat (constructor; [do 2 eexists; reflexivity|]). constructor.
Defined.

Lemma copy_reset_not_postponed_witness :
  let node := Markdown.RText Demo.sixty in
  let st := Markdown.copy_run
              [Markdown.CopyClicked (Some node) true; Markdown.TimePassed 1500]
              (Markdown.copy_initial "" 0) in
  Markdown.copied
    (Markdown.copy_run [Markdown.CopyClicked (Some node) true] st) = true
  /\ Markdown.copied
       (Markdown.elapse 500
          (Markdown.copy_run [Markdown.CopyClicked (Some node) true] st))
     = false.
Proof.
  intros node st. split; [reflexivity|].
  apply (copy_reset_not_postponed st
           [Markdown.CopyClicked (Some node) true] 2000 500%N).
  - left. reflexivity.
  - apply Z.leb_le. reflexivity.
  - constructor; [do 2 eexists; reflexivity | constructor].
Defined.
